(** * pg_rage_terminator: the background worker's control loop

    A shallow embedding of [pg_rage_terminator.c].  The worker's
    global variables become a record that is threaded through a small
    process monad; every call the worker makes into the server (latch,
    log, configuration reload, SPI, process exit) is recorded as an
    event of a trace.  What the server decides (which signals arrive
    and when, the result of [WaitLatch], the contents of the
    configuration file, the rows of [pg_stat_activity] and the value
    [random() * 100] takes on each of them) is an input of each loop
    iteration. *)

From Stdlib Require Import ZArith QArith Qround Bool String Ascii List Lia.
From Stdlib Require Import DecimalString DecimalZ DecimalPos.
Import ListNotations.

Local Open Scope string_scope.
Local Open Scope Z_scope.

(** ** Printing an [int] with [%d] *)

Definition fmt_d (n : Z) : string :=
  NilZero.string_of_int (Z.to_int n).

Definition scan_d (s : string) : option Z :=
  option_map Z.of_int (NilZero.int_of_string s).

(** ** The cast [::int] of a [double precision] value

    The server rounds with [rint]: to the nearest integer, a tie going
    to the even neighbour.  A value of [random() * 100] is a finite
    double, hence a rational [n / d]; [half_up] is [floor (n/d + 1/2)]
    and a tie is the case where [2n + d] is a multiple of [2d]. *)

Definition half_up (r : Q) : Z :=
  (2 * Qnum r + Zpos (Qden r)) / (2 * Zpos (Qden r)).

Definition is_tie (r : Q) : bool :=
  (2 * Qnum r + Zpos (Qden r)) mod (2 * Zpos (Qden r)) =? 0.

Definition rint (r : Q) : Z :=
  if is_tie r && Z.odd (half_up r) then half_up r - 1 else half_up r.

Definition dtoi4 (r : Q) : Z := rint r.

(** ** Rows of [pg_stat_activity] and of the result set *)

Record activity_row := {
  pid : Z;
  usename : option string;
  datname : option string;
  client_addr : option string;
  client_port : option Z
}.

(** A value of type [text] as it lies in memory: the bytes of the
    varlena header, the characters (no NUL after them), and the bytes
    that follow the datum. *)
Record varlena := {
  vl_header : string;
  vl_data : string;
  vl_after : string
}.

(** What [SPI_getbinval] hands out for a column: an integer or a
    boolean by value, a pointer to a [NameData] (a NUL-terminated
    name) or to a varlena, and [(Datum) 0] for a NULL column. *)
Inductive Datum :=
| NullDatum
| Int32Datum (n : Z)
| BoolDatum (b : bool)
| NameDatum (s : string)
| TextDatum (v : varlena).

(** One row of [SPI_tuptable]: the five columns of the select list. *)
Record tuple := {
  t_pid : Datum;
  t_status : Datum;
  t_usename : Datum;
  t_datname : Datum;
  t_client_addr : Datum
}.

Definition SPI_getbinval (t : tuple) (fnumber : Z) : Datum :=
  if fnumber =? 1 then t_pid t
  else if fnumber =? 2 then t_status t
  else if fnumber =? 3 then t_usename t
  else if fnumber =? 4 then t_datname t
  else if fnumber =? 5 then t_client_addr t
  else NullDatum.

(** The C string found at an address: the bytes up to the first
    NUL. *)
Fixpoint c_string (mem : string) : string :=
  match mem with
  | EmptyString => EmptyString
  | String a rest =>
      if Ascii.eqb a Ascii.zero then EmptyString
      else String a (c_string rest)
  end.

Definition DatumGetInt32 (d : Datum) : Z :=
  match d with
  | Int32Datum n => n
  | BoolDatum b => if b then 1 else 0
  | _ => 0
  end.

(** [DatumGetCString] takes the datum for a [char *]: NULL ([None])
    for [(Datum) 0], the name for a pointer to a [NameData], and for
    a pointer to a varlena the bytes found there, the header first.
    The worker applies it to the columns 3 to 5 only; a datum passed
    by value is no address of a string and is given [None] here. *)
Definition DatumGetCString (d : Datum) : option string :=
  match d with
  | NullDatum => None
  | NameDatum s => Some s
  | TextDatum v => Some (c_string (vl_header v ++ vl_data v ++ vl_after v))
  | Int32Datum _ => None
  | BoolDatum _ => None
  end.

(** ** The kill query *)

Definition query_head : string :=
  "SELECT " ++
  "pid, pg_terminate_backend(pid) as status, " ++
  "usename, datname, client_addr::text " ++
  "FROM pg_stat_activity " ++
  "WHERE client_port IS NOT NULL " ++
  "AND ((random() * 100)::int < ".

Definition query_tail : string := ") ".

(** The text [appendStringInfo] formats in
    [pg_rage_terminator_build_query]. *)
Definition kill_query (chance : Z) : string :=
  query_head ++ fmt_d chance ++ query_tail.

(** The WHERE clause on one row; [r] is the value of [random() * 100]
    drawn for that row. *)
Definition qual (c : Z) (row : activity_row) (r : Q) : bool :=
  match client_port row with
  | None => false
  | Some _ => dtoi4 r <? c
  end.

Definition name_datum (s : option string) : Datum :=
  match s with
  | Some v => NameDatum v
  | None => NullDatum
  end.

(** [layout] is the server's: for a text it gives the header bytes
    stored in front of it and the bytes that follow it in memory. *)
Definition text_datum (layout : string -> string * string)
  (s : option string) : Datum :=
  match s with
  | Some v =>
      TextDatum {| vl_header := fst (layout v); vl_data := v;
                   vl_after := snd (layout v) |}
  | None => NullDatum
  end.

(** The select list on a row that passed the WHERE clause;
    [terminate] is [pg_terminate_backend], whose result is the
    [status] column; [usename] and [datname] are of type [name],
    [client_addr::text] is of type [text]. *)
Definition project (terminate : Z -> bool)
  (layout : string -> string * string) (row : activity_row) : tuple :=
  {| t_pid := Int32Datum (pid row);
     t_status := BoolDatum (terminate (pid row));
     t_usename := name_datum (usename row);
     t_datname := name_datum (datname row);
     t_client_addr := text_datum layout (client_addr row) |}.

Definition selected (c : Z) (tbl : list (activity_row * Q))
  : list activity_row :=
  map fst (filter (fun x => qual c (fst x) (snd x)) tbl).

Definition eval_kill_query (c : Z) (terminate : Z -> bool)
  (layout : string -> string * string)
  (tbl : list (activity_row * Q)) : list tuple :=
  map (project terminate layout) (selected c tbl).

(** The rows the query is meant for: the connections with a client
    port. *)
Definition has_client (row : activity_row) : bool :=
  match client_port row with
  | None => false
  | Some _ => true
  end.

Definition candidates (tbl : list (activity_row * Q)) : list activity_row :=
  filter has_client (map fst tbl).

(** Reading a query text back: the server runs the text it is given,
    so the comparison constant is the one printed in the text. *)
Fixpoint strip_prefix (p s : string) : option string :=
  match p, s with
  | EmptyString, _ => Some s
  | String a p', String b s' =>
      if Ascii.eqb a b then strip_prefix p' s' else None
  | String _ _, EmptyString => None
  end.

Definition parse_kill_query (q : string) : option Z :=
  match strip_prefix query_head q with
  | None => None
  | Some rest =>
      let n := (String.length rest - 2)%nat in
      if String.eqb (substring n 2 rest) query_tail
      then scan_d (substring 0 n rest)
      else None
  end.

(** ** The worker's global variables *)

Record worker := {
  got_sigterm : bool;
  got_sighup : bool;
  latch : bool;            (* MyProc->procLatch *)
  chance : Z;
  interval : Z;
  buf : string             (* buf.data *)
}.

Definition set_got_sigterm (b : bool) (w : worker) : worker :=
  {| got_sigterm := b; got_sighup := got_sighup w; latch := latch w;
     chance := chance w; interval := interval w; buf := buf w |}.

Definition set_got_sighup (b : bool) (w : worker) : worker :=
  {| got_sigterm := got_sigterm w; got_sighup := b; latch := latch w;
     chance := chance w; interval := interval w; buf := buf w |}.

Definition set_latch (b : bool) (w : worker) : worker :=
  {| got_sigterm := got_sigterm w; got_sighup := got_sighup w; latch := b;
     chance := chance w; interval := interval w; buf := buf w |}.

Definition set_chance (c : Z) (w : worker) : worker :=
  {| got_sigterm := got_sigterm w; got_sighup := got_sighup w;
     latch := latch w; chance := c; interval := interval w; buf := buf w |}.

Definition set_interval (i : Z) (w : worker) : worker :=
  {| got_sigterm := got_sigterm w; got_sighup := got_sighup w;
     latch := latch w; chance := chance w; interval := i; buf := buf w |}.

Definition set_buf (s : string) (w : worker) : worker :=
  {| got_sigterm := got_sigterm w; got_sighup := got_sighup w;
     latch := latch w; chance := chance w; interval := interval w;
     buf := s |}.

(** The static initialisers of the C file. *)
Definition boot : worker :=
  {| got_sigterm := false; got_sighup := false; latch := false;
     chance := 10; interval := 5; buf := EmptyString |}.

(** ** Signal handlers *)

Inductive signal := SIGHUP | SIGTERM.

Definition pg_rage_terminator_sigterm (w : worker) : worker :=
  set_latch true (set_got_sigterm true w).

Definition pg_rage_terminator_sighup (w : worker) : worker :=
  set_latch true (set_got_sighup true w).

Definition handler (s : signal) : worker -> worker :=
  match s with
  | SIGHUP => pg_rage_terminator_sighup
  | SIGTERM => pg_rage_terminator_sigterm
  end.

(** The signals of [sigs] arrive one after the other. *)
Definition deliver (sigs : list signal) (w : worker) : worker :=
  fold_left (fun w s => handler s w) sigs w.

(** ** Custom integer parameters *)

Record config_int := {
  guc_name : string;
  boot_val : Z;
  min_val : Z;
  max_val : Z
}.

Definition chance_guc : config_int :=
  {| guc_name := "pg_rage_terminator.chance";
     boot_val := 10; min_val := 0; max_val := 100 |}.

Definition interval_guc : config_int :=
  {| guc_name := "pg_rage_terminator.interval";
     boot_val := 5; min_val := -1; max_val := 3600 |}.

Definition pg_rage_terminator_load_params : list config_int :=
  [chance_guc; interval_guc].

(** What the configuration file says about the two parameters: [None]
    when the file has no line for it. *)
Record config_file := {
  cf_chance : option Z;
  cf_interval : option Z
}.

(** The server's range check ([DefineCustomIntVariable] passes the
    bounds): a value outside [min_val .. max_val] is refused and the
    variable keeps its value; a parameter absent from the file goes
    back to its boot value. *)
Definition in_range (g : config_int) (v : Z) : bool :=
  (min_val g <=? v) && (v <=? max_val g).

Definition guc_assign (g : config_int) (cur : Z) (setting : option Z) : Z :=
  match setting with
  | None => boot_val g
  | Some v => if in_range g v then v else cur
  end.

Definition apply_config (cf : config_file) (w : worker) : worker :=
  set_interval (guc_assign interval_guc (interval w) (cf_interval cf))
    (set_chance (guc_assign chance_guc (chance w) (cf_chance cf)) w).

(** The worker as the postmaster starts it: the globals after the
    configuration file was read at server start. *)
Definition start (cf : config_file) : worker := apply_config cf boot.

(** ** Events and the process monad *)

Inductive elevel := DEBUG1 | LOG | FATAL.

Inductive event :=
| EvWaitLatch (timeout_ms : Z)
| EvResetLatch
| EvProcessConfigFile
| EvElog (lvl : elevel) (msg : string)
| EvCall (fn : string)
| EvSPIExecute (query : string)
| EvProcExit (code : Z).

Inductive res (A : Type) :=
| Ret (a : A) (w : worker)
| Exit (code : Z) (w : worker).

Arguments Ret {A} a w.
Arguments Exit {A} code w.

Definition proc (A : Type) : Type := worker -> list event * res A.

Definition ret {A} (a : A) : proc A := fun w => ([], Ret a w).

Definition bind {A B} (m : proc A) (f : A -> proc B) : proc B :=
  fun w =>
    match m w with
    | (tr, Ret a w') => let (tr', r) := f a w' in ((tr ++ tr')%list, r)
    | (tr, Exit c w') => (tr, Exit c w')
    end.

Notation "x <- m ;; k" := (bind m (fun x => k))
  (at level 61, m at next level, right associativity).
Notation "m ;; k" := (bind m (fun _ => k))
  (at level 61, right associativity).

Definition get : proc worker := fun w => ([], Ret w w).
Definition modify (f : worker -> worker) : proc unit :=
  fun w => ([], Ret tt (f w)).
Definition emit (e : event) : proc unit := fun w => ([e], Ret tt w).
Definition call (fn : string) : proc unit := emit (EvCall fn).

Definition proc_exit (code : Z) : proc unit :=
  fun w => ([EvProcExit code], Exit code w).

(** [elog] and [ereport]: at level FATAL the process exits with
    status 1 after the message. *)
Definition elog (lvl : elevel) (msg : string) : proc unit :=
  emit (EvElog lvl msg) ;;
  match lvl with
  | FATAL => proc_exit 1
  | _ => ret tt
  end.

Definition when (b : bool) (m : proc unit) : proc unit :=
  if b then m else ret tt.

Fixpoint for_each {A} (l : list A) (f : A -> proc unit) : proc unit :=
  match l with
  | [] => ret tt
  | x :: l' => f x ;; for_each l' f
  end.

Definition trace_of {A} (x : list event * res A) : list event := fst x.

Definition final {A} (x : list event * res A) : worker :=
  match snd x with
  | Ret _ w => w
  | Exit _ w => w
  end.

Definition exit_code {A} (x : list event * res A) : option Z :=
  match snd x with
  | Ret _ _ => None
  | Exit c _ => Some c
  end.

(** ** Server constants the worker uses *)

Definition WL_LATCH_SET : Z := 1.
Definition WL_TIMEOUT : Z := 8.
Definition WL_POSTMASTER_DEATH : Z := 16.
Definition SPI_OK_SELECT : Z := 5.
Definition SPI_ERROR_ARGUMENT : Z := -6.

(** ** What the server decides during one loop iteration

    Signals are asynchronous.  [wait_signals] arrive before
    [ResetLatch] (while the worker is blocked in [WaitLatch], or
    earlier); [reset_signals] arrive after [ResetLatch] and before
    the flags are looked at; [reload_signals] arrive in the SIGHUP
    block before [got_sighup] is written (while [ProcessConfigFile]
    runs, say); [late_signals] arrive after the two flag checks and
    before the next wait.  (A signal between the write of
    [got_sighup] and the check of [got_sigterm] has no slot of its
    own: a SIGTERM there is seen by the same check as one of
    [reset_signals], and a SIGHUP there stays pending like one of
    [late_signals].)  Each row of [activity] comes with the value
    that [random() * 100] takes when the WHERE clause is evaluated on
    it; [text_layout] gives, for the text of a column, the header
    bytes in front of it and the bytes after it in the result
    tuple. *)

Record iter_input := {
  wait_signals : list signal;   (* delivered before ResetLatch *)
  wait_rc : Z;                  (* the result of WaitLatch *)
  reset_signals : list signal;  (* delivered right after ResetLatch *)
  conf_file : config_file;      (* the file ProcessConfigFile would read *)
  reload_signals : list signal; (* delivered before got_sighup = false *)
  late_signals : list signal;   (* delivered after the flag checks *)
  spi_status : Z;               (* the result of SPI_execute *)
  activity : list (activity_row * Q);
  terminate : Z -> bool;        (* pg_terminate_backend *)
  text_layout : string -> string * string
}.

(** ** Calls into the server *)

Definition interrupts (sigs : list signal) : proc unit :=
  modify (deliver sigs).

Definition WaitLatch (e : iter_input) (wake_events : Z) (timeout_ms : Z)
  : proc Z :=
  emit (EvWaitLatch timeout_ms) ;;
  interrupts (wait_signals e) ;;
  ret (wait_rc e).

Definition ResetLatch : proc unit :=
  emit EvResetLatch ;; modify (set_latch false).

Definition ProcessConfigFile (e : iter_input) : proc unit :=
  emit EvProcessConfigFile ;;
  interrupts (reload_signals e) ;;
  modify (apply_config (conf_file e)).

Definition initStringInfo : proc unit := modify (set_buf EmptyString).
Definition resetStringInfo : proc unit := modify (set_buf EmptyString).

Definition appendStringInfo (s : string) : proc unit :=
  modify (fun w => set_buf (buf w ++ s) w).

(** [SPI_execute] runs the text it is given.  A text that is not a
    kill query is outside this model and reported as a failure. *)
Definition spi_result (e : iter_input) (q : string) : Z * list tuple :=
  if spi_status e =? SPI_OK_SELECT
  then match parse_kill_query q with
       | Some c =>
           (SPI_OK_SELECT,
            eval_kill_query c (terminate e) (text_layout e) (activity e))
       | None => (SPI_ERROR_ARGUMENT, [])
       end
  else (spi_status e, []).

Definition SPI_execute (e : iter_input) (q : string)
  : proc (Z * list tuple) :=
  emit (EvSPIExecute q) ;;
  ret (spi_result e q).

(** ** The worker *)

Definition pg_rage_terminator_build_query : proc unit :=
  w <- get ;;
  appendStringInfo (kill_query (chance w)) ;;
  w <- get ;;
  elog DEBUG1 ("Kill query is: " ++ buf w).

(** [p ? p : "none"] on a [char *] that is NULL for a NULL column. *)
Definition or_none (s : option string) : string :=
  match s with
  | Some v => v
  | None => "none"
  end.

(** The line of [elog] for the values fetched from a row. *)
Definition rage_text (pidValue : Z) (datname usename client_addr
                                       : option string) : string :=
  "Rage terminated connection with PID " ++ fmt_d pidValue ++ " " ++
  or_none datname ++ "/" ++
  or_none usename ++ "/" ++
  or_none client_addr.

Definition rage_message (t : tuple) : string :=
  let pidValue := DatumGetInt32 (SPI_getbinval t 1) in
  let usename := DatumGetCString (SPI_getbinval t 3) in
  let datname := DatumGetCString (SPI_getbinval t 4) in
  let client_addr := DatumGetCString (SPI_getbinval t 5) in
  rage_text pidValue datname usename client_addr.

(** The body of the [for] loop over the rows. *)
Definition log_tuple (t : tuple) : proc unit :=
  elog LOG (rage_message t).

Definition sighup_block (e : iter_input) : proc unit :=
  w <- get ;;
  let old_chance := chance w in
  ProcessConfigFile e ;;
  modify (set_got_sighup false) ;;
  elog LOG "bgworker pg_rage_terminator signal: processed SIGHUP" ;;
  w <- get ;;
  when (negb (old_chance =? chance w))
    (resetStringInfo ;;
     initStringInfo ;;
     pg_rage_terminator_build_query).

Definition sigterm_block : proc unit :=
  elog LOG "bgworker pg_rage_terminator signal: processed SIGTERM" ;;
  proc_exit 0.

Definition scan_pass (e : iter_input) : proc unit :=
  call "SetCurrentStatementStartTimestamp" ;;
  call "StartTransactionCommand" ;;
  call "SPI_connect" ;;
  call "PushActiveSnapshot" ;;
  call "pgstat_report_activity" ;;
  call "SetCurrentStatementStartTimestamp" ;;
  w <- get ;;
  r <- SPI_execute e (buf w) ;;
  when (negb (fst r =? SPI_OK_SELECT))
    (elog FATAL "Error when trying to rage") ;;
  for_each (snd r) log_tuple ;;
  call "SPI_finish" ;;
  call "PopActiveSnapshot" ;;
  call "CommitTransactionCommand" ;;
  call "pgstat_report_activity".

(** One pass through the body of [while (!got_sigterm)]. *)
Definition loop_body (e : iter_input) : proc unit :=
  w <- get ;;
  let sleep_interval := if 0 =? interval w then 10 else interval w in
  rc <- WaitLatch e
          (Z.lor (Z.lor WL_LATCH_SET WL_TIMEOUT) WL_POSTMASTER_DEATH)
          (sleep_interval * 1000) ;;
  ResetLatch ;;
  interrupts (reset_signals e) ;;
  when (negb (Z.land rc WL_POSTMASTER_DEATH =? 0)) (proc_exit 1) ;;
  w <- get ;;
  when (got_sighup w) (sighup_block e) ;;
  w <- get ;;
  when (got_sigterm w) sigterm_block ;;
  interrupts (late_signals e) ;;
  w <- get ;;
  if 0 =? interval w
  then elog LOG "Nothing to do, sleep zzzzZZZZ"
  else scan_pass e.

(** The loop, run for as many iterations as there are inputs; when
    they run out the worker is still in the loop ([Ret]).  The
    [proc_exit(0)] is the one after the loop. *)
Fixpoint main_loop (inputs : list iter_input) : proc unit :=
  w <- get ;;
  if got_sigterm w then proc_exit 0
  else match inputs with
       | [] => ret tt
       | e :: rest => loop_body e ;; main_loop rest
       end.

Definition pg_rage_terminator_main (inputs : list iter_input) : proc unit :=
  call "pqsignal" ;;
  call "pqsignal" ;;
  call "BackgroundWorkerUnblockSignals" ;;
  call "BackgroundWorkerInitializeConnection" ;;
  initStringInfo ;;
  pg_rage_terminator_build_query ;;
  main_loop inputs.

(** ** Draws on a grid

    [N] equally spaced values of [random() * 100] in [[0,100)], and
    how many of them pass the comparison with [c]. *)

Definition grid_draw (N : positive) (k : nat) : Q :=
  (100 * Z.of_nat k) # N.

Definition grid_pass (c : Z) (N : positive) (k : nat) : bool :=
  dtoi4 (grid_draw N k) <? c.

Definition count_true (f : nat -> bool) (n : nat) : nat :=
  List.length (filter f (seq 0 n)).

Definition count_selected (c : Z) (N : positive) : nat :=
  count_true (grid_pass c N) (Pos.to_nat N).

(** ** Sample rows and inputs *)

Definition remote_row : activity_row :=
  {| pid := 4711; usename := Some "alice"; datname := Some "shop";
     client_addr := Some "192.0.2.7"; client_port := Some 50432 |}.

Definition local_row : activity_row :=
  {| pid := 4712; usename := Some "bob"; datname := None;
     client_addr := None; client_port := Some (-1) |}.

Definition autovacuum_row : activity_row :=
  {| pid := 900; usename := None; datname := None;
     client_addr := None; client_port := None |}.

(** The layout of a short text in a result tuple on a little-endian
    machine: a header of one byte, [((length + 1) << 1) | 1], in
    front; here the byte after the datum is a NUL. *)
Definition short_varlena (s : string) : string * string :=
  (String (ascii_of_nat (2 * (String.length s + 1) + 1)) EmptyString,
   EmptyString).

Definition quiet_input (tbl : list (activity_row * Q)) : iter_input :=
  {| wait_signals := []; wait_rc := WL_TIMEOUT; reset_signals := [];
     conf_file := {| cf_chance := None; cf_interval := None |};
     reload_signals := [];
     late_signals := []; spi_status := SPI_OK_SELECT;
     activity := tbl; terminate := fun _ => true;
     text_layout := short_varlena |}.

(** ** Names for the pieces of a trace *)

Definition sighup_message : string :=
  "bgworker pg_rage_terminator signal: processed SIGHUP".

Definition sigterm_message : string :=
  "bgworker pg_rage_terminator signal: processed SIGTERM".

Definition scan_prologue : list event :=
  [EvCall "SetCurrentStatementStartTimestamp";
   EvCall "StartTransactionCommand";
   EvCall "SPI_connect";
   EvCall "PushActiveSnapshot";
   EvCall "pgstat_report_activity";
   EvCall "SetCurrentStatementStartTimestamp"].

Definition scan_epilogue : list event :=
  [EvCall "SPI_finish";
   EvCall "PopActiveSnapshot";
   EvCall "CommitTransactionCommand";
   EvCall "pgstat_report_activity"].

Definition rage_events (ts : list tuple) : list event :=
  map (fun t => EvElog LOG (rage_message t)) ts.

(** The globals when [WaitLatch] and [ResetLatch] have returned and
    the flags are about to be looked at. *)
Definition woken (e : iter_input) (w : worker) : worker :=
  deliver (reset_signals e) (set_latch false (deliver (wait_signals e) w)).

(** The globals when [ProcessConfigFile] has returned and the flag is
    taken down. *)
Definition reloaded (e : iter_input) (w : worker) : worker :=
  set_got_sighup false
    (apply_config (conf_file e) (deliver (reload_signals e) w)).

Definition postmaster_died (e : iter_input) : bool :=
  negb (Z.land (wait_rc e) WL_POSTMASTER_DEATH =? 0).

Definition sleep_ms (w : worker) : Z :=
  (if 0 =? interval w then 10 else interval w) * 1000.

Definition is_scan (ev : event) : bool :=
  match ev with
  | EvSPIExecute _ => true
  | _ => false
  end.

Definition is_build (ev : event) : bool :=
  match ev with
  | EvElog DEBUG1 _ => true
  | _ => false
  end.

(** The reload step of an iteration: [if (got_sighup) { ... }] run on
    the globals as they are after the wait. *)
Definition reload_step (e : iter_input) (w : worker)
  : list event * res unit :=
  when (got_sighup (woken e w)) (sighup_block e) (woken e w).

Definition idle_message : string := "Nothing to do, sleep zzzzZZZZ".

(** The iteration gets as far as the scan: the postmaster is alive, no
    SIGTERM was seen and [interval] is not 0 once the reload is done. *)
Definition scans (e : iter_input) (w : worker) : bool :=
  negb (postmaster_died e) &&
  negb (got_sigterm (final (reload_step e w))) &&
  negb (0 =? interval (final (reload_step e w))).

(** The configuration file of [e] leaves a disabled worker disabled. *)
Definition keeps_disabled (e : iter_input) : Prop :=
  guc_assign interval_guc 0 (cf_interval (conf_file e)) = 0.

Definition with_terminate (f : Z -> bool) (e : iter_input) : iter_input :=
  {| wait_signals := wait_signals e; wait_rc := wait_rc e;
     reset_signals := reset_signals e;
     conf_file := conf_file e; reload_signals := reload_signals e;
     late_signals := late_signals e;
     spi_status := spi_status e; activity := activity e;
     terminate := f; text_layout := text_layout e |}.

(** The text that [DatumGetCString] finds for [client_addr::text]:
    the bytes at the varlena, from its header on, up to the first
    NUL. *)
Definition addr_as_cstring (layout : string -> string * string)
  (addr : string) : string :=
  c_string (fst (layout addr) ++ addr ++ snd (layout addr)).

(** The log line for a selected row of [pg_stat_activity]. *)
Definition rage_line (layout : string -> string * string)
  (row : activity_row) : string :=
  "Rage terminated connection with PID " ++ fmt_d (pid row) ++ " " ++
  or_none (datname row) ++ "/" ++
  or_none (usename row) ++ "/" ++
  or_none (option_map (addr_as_cstring layout) (client_addr row)).

Definition is_sigterm (s : signal) : bool :=
  match s with
  | SIGTERM => true
  | SIGHUP => false
  end.

Definition is_sighup (s : signal) : bool :=
  match s with
  | SIGHUP => true
  | SIGTERM => false
  end.

(** What a trace may hold while the worker is disabled: no call of the
    scan, and waits of ten seconds only. *)
Definition disabled_ok (ev : event) : bool :=
  match ev with
  | EvSPIExecute _ => false
  | EvCall _ => false
  | EvWaitLatch t => t =? 10000
  | _ => true
  end.

(** Sample inputs. *)
Definition sample_conf : config_file :=
  {| cf_chance := Some 50; cf_interval := Some 5 |}.

Definition disabling_conf : config_file :=
  {| cf_chance := Some 50; cf_interval := Some 0 |}.

(** The globals once the first query is built from the boot values. *)
Definition w_running : worker := set_buf (kill_query 10) boot.

Definition w_disabled : worker := set_interval 0 w_running.

(** The globals with [chance] at 50 and at 100, the query built. *)
Definition w_fifty : worker :=
  set_buf (kill_query 50) (set_chance 50 boot).

Definition w_hundred : worker :=
  set_buf (kill_query 100) (set_chance 100 boot).

Definition sample_table : list (activity_row * Q) :=
  [(remote_row, 3 # 2); (autovacuum_row, 1 # 4); (local_row, 171 # 4)].

Definition death_input : iter_input :=
  {| wait_signals := [SIGHUP; SIGTERM];
     wait_rc := Z.lor WL_LATCH_SET WL_POSTMASTER_DEATH; reset_signals := [];
     conf_file := sample_conf; reload_signals := []; late_signals := [];
     spi_status := SPI_OK_SELECT; activity := sample_table;
     terminate := fun _ => true;
     text_layout := short_varlena |}.

Definition hup_term_input : iter_input :=
  {| wait_signals := [SIGHUP; SIGTERM; SIGHUP];
     wait_rc := WL_LATCH_SET; reset_signals := [];
     conf_file := sample_conf; reload_signals := []; late_signals := [];
     spi_status := SPI_OK_SELECT; activity := sample_table;
     terminate := fun _ => true;
     text_layout := short_varlena |}.

Definition hup_input (cf : config_file) : iter_input :=
  {| wait_signals := [SIGHUP];
     wait_rc := WL_LATCH_SET; reset_signals := [];
     conf_file := cf; reload_signals := []; late_signals := [];
     spi_status := SPI_OK_SELECT; activity := sample_table;
     terminate := fun _ => false;
     text_layout := short_varlena |}.


Definition failing_input : iter_input :=
  {| wait_signals := []; wait_rc := WL_TIMEOUT; reset_signals := [];
     conf_file := sample_conf; reload_signals := []; late_signals := [];
     spi_status := SPI_ERROR_ARGUMENT; activity := sample_table;
     terminate := fun _ => true;
     text_layout := short_varlena |}.

Definition idle_input (cf : config_file) : iter_input :=
  {| wait_signals := []; wait_rc := WL_TIMEOUT; reset_signals := [];
     conf_file := cf; reload_signals := []; late_signals := [];
     spi_status := SPI_OK_SELECT; activity := sample_table;
     terminate := fun _ => true;
     text_layout := short_varlena |}.

Definition term_input : iter_input :=
  {| wait_signals := [SIGTERM]; wait_rc := WL_LATCH_SET; reset_signals := [];
     conf_file := disabling_conf; reload_signals := []; late_signals := [];
     spi_status := SPI_OK_SELECT; activity := sample_table;
     terminate := fun _ => true;
     text_layout := short_varlena |}.

Definition negative_conf : config_file :=
  {| cf_chance := None; cf_interval := Some (-1) |}.

(** What [pg_rage_terminator_main] does before it enters the loop. *)
Definition main_prologue (w : worker) : list event :=
  [EvCall "pqsignal"; EvCall "pqsignal";
   EvCall "BackgroundWorkerUnblockSignals";
   EvCall "BackgroundWorkerInitializeConnection";
   EvElog DEBUG1 ("Kill query is: " ++ kill_query (chance w))].

(** ** Counting events, and what a whole run may hold *)

Definition count_ev (p : event -> bool) (tr : list event) : nat :=
  List.length (filter p tr).

Definition is_config (ev : event) : bool :=
  match ev with
  | EvProcessConfigFile => true
  | _ => false
  end.

Definition is_call (fn : string) (ev : event) : bool :=
  match ev with
  | EvCall g => String.eqb fn g
  | _ => false
  end.

Definition is_start_txn : event -> bool := is_call "StartTransactionCommand".
Definition is_commit_txn : event -> bool := is_call "CommitTransactionCommand".

Definition is_fatal (ev : event) : bool :=
  match ev with
  | EvElog FATAL _ => true
  | _ => false
  end.

Definition is_exit (ev : event) : bool :=
  match ev with
  | EvProcExit _ => true
  | _ => false
  end.

Definition is_log_of (msg : string) (ev : event) : bool :=
  match ev with
  | EvElog LOG m => String.eqb msg m
  | _ => false
  end.

(** The two parameters within the bounds they are registered with. *)
Definition params_ok (w : worker) : Prop :=
  min_val chance_guc <= chance w <= max_val chance_guc /\
  min_val interval_guc <= interval w <= max_val interval_guc.

(** The text in [buf] is the kill query of the current [chance]. *)
Definition buf_ok (w : worker) : Prop := buf w = kill_query (chance w).

(** A wait of at least a second and at most an hour, or the wait of an
    [interval] of -1. *)
Definition wait_ok (ev : event) : Prop :=
  match ev with
  | EvWaitLatch t => t = -1000 \/ 1000 <= t <= 3600000
  | _ => True
  end.

(** A query that is the kill query of a chance between 0 and 100. *)
Definition query_ok (ev : event) : Prop :=
  match ev with
  | EvSPIExecute q => exists c, 0 <= c <= 100 /\ q = kill_query c
  | _ => True
  end.

Definition is_wait (ev : event) : bool :=
  match ev with
  | EvWaitLatch _ => true
  | _ => false
  end.

Definition late_term_input : iter_input :=
  {| wait_signals := []; wait_rc := WL_TIMEOUT; reset_signals := [];
     conf_file := sample_conf; reload_signals := []; late_signals := [SIGTERM];
     spi_status := SPI_OK_SELECT; activity := sample_table;
     terminate := fun _ => true;
     text_layout := short_varlena |}.

(** How a run may end: while the worker is in the loop no event is an
    exit; when it has left, the status is 0 or 1, the last event is
    that [proc_exit] and no other event is one, and status 0 comes
    with [got_sigterm] set. *)
Definition exit_shape (x : list event * res unit) : Prop :=
  match exit_code x with
  | None => count_ev is_exit (trace_of x) = 0%nat
  | Some c =>
      (c = 0 \/ c = 1) /\
      (c = 0 -> got_sigterm (final x) = true) /\
      exists pre,
        trace_of x = (pre ++ [EvProcExit c])%list /\
        count_ev is_exit pre = 0%nat
  end.

(** Transactions of a run: as many started as queries executed; each
    one committed, but for the one in which the worker died with
    FATAL, if there is one. *)
Definition txn_balanced (x : list event * res unit) : Prop :=
  count_ev is_start_txn (trace_of x) = count_ev is_scan (trace_of x) /\
  count_ev is_start_txn (trace_of x) =
    (count_ev is_commit_txn (trace_of x) +
     count_ev is_fatal (trace_of x))%nat /\
  (count_ev is_fatal (trace_of x) = 0%nat \/
   (count_ev is_fatal (trace_of x) = 1%nat /\ exit_code x = Some 1)).

(** An event predicate that is false on everything an iteration emits
    outside its scan pass, exits apart. *)
Definition outside_scan (p : event -> bool) : Prop :=
  (forall t, p (EvWaitLatch t) = false) /\
  p EvResetLatch = false /\
  p EvProcessConfigFile = false /\
  (forall m, p (EvElog LOG m) = false) /\
  (forall m, p (EvElog DEBUG1 m) = false) /\
  (forall c, p (EvProcExit c) = false).

(** ** Registration of the worker

    [snprintf (dst, size, "%s", s)] keeps the first [size - 1]
    characters of [s].  [BGW_MAXLEN] is a constant of the server
    (64 or 96, depending on its version) and is taken as a
    parameter. *)

Definition snprintf (size : nat) (s : string) : string :=
  substring 0 (size - 1) s.

Definition BGWORKER_SHMEM_ACCESS : Z := 1.
Definition BGWORKER_BACKEND_DATABASE_CONNECTION : Z := 2.

Inductive BgWorkerStartTime :=
| BgWorkerStart_PostmasterStart
| BgWorkerStart_ConsistentState
| BgWorkerStart_RecoveryFinished.

Record BackgroundWorker := {
  bgw_name : string;
  bgw_flags : Z;
  bgw_start_time : BgWorkerStartTime;
  bgw_restart_time : Z;
  bgw_library_name : string;
  bgw_function_name : string;
  bgw_main_arg : Z;
  bgw_notify_pid : Z
}.

Definition worker_name : string := "pg_rage_terminator".

(** [_PG_init]: the parameters it defines and the worker it
    registers. *)
Definition _PG_init (BGW_MAXLEN : nat)
  : list config_int * BackgroundWorker :=
  (pg_rage_terminator_load_params,
   {| bgw_name := snprintf BGW_MAXLEN worker_name;
      bgw_flags :=
        Z.lor BGWORKER_SHMEM_ACCESS BGWORKER_BACKEND_DATABASE_CONNECTION;
      bgw_start_time := BgWorkerStart_ConsistentState;
      bgw_restart_time := 10;
      bgw_library_name := snprintf (BGW_MAXLEN - 1) "pg_rage_terminator";
      bgw_function_name :=
        snprintf (BGW_MAXLEN - 1) "pg_rage_terminator_main";
      bgw_main_arg := 0;
      bgw_notify_pid := 0 |}).

(** An event predicate that is false on everything an iteration emits
    outside its reload step. *)
Definition outside_reload (p : event -> bool) : Prop :=
  (forall t, p (EvWaitLatch t) = false) /\
  p EvResetLatch = false /\
  (forall c, p (EvProcExit c) = false) /\
  p (EvElog LOG sigterm_message) = false /\
  p (EvElog LOG idle_message) = false /\
  (forall t, p (EvElog LOG (rage_message t)) = false) /\
  (forall m, p (EvElog FATAL m) = false) /\
  (forall fn, p (EvCall fn) = false) /\
  (forall q, p (EvSPIExecute q) = false).

(** A SIGHUP arrives right after [ResetLatch], before the flag is
    looked at. *)
Definition hup_after_reset_input : iter_input :=
  {| wait_signals := []; wait_rc := WL_LATCH_SET;
     reset_signals := [SIGHUP];
     conf_file := sample_conf; reload_signals := [];
     late_signals := [];
     spi_status := SPI_OK_SELECT; activity := sample_table;
     terminate := fun _ => true;
     text_layout := short_varlena |}.

(** * Rounding *)

Lemma rint_lt_num (r : Q) (c : Z) :
  rint r < c <->
  2 * Qnum r + Zpos (Qden r) < 2 * Zpos (Qden r) * c \/
  (2 * Qnum r + Zpos (Qden r) = 2 * Zpos (Qden r) * c /\ Z.odd c = true).
Proof.
  unfold rint, is_tie, half_up.
  set (a := 2 * Qnum r + Zpos (Qden r)).
  set (b := 2 * Zpos (Qden r)).
  assert (Hb : 0 < b) by (unfold b; lia).
  pose proof (Z.div_mod a b ltac:(lia)) as Hdm.
  pose proof (Z.mod_pos_bound a b Hb) as Hm.
  destruct (Z.eqb_spec (a mod b) 0) as [Hz | Hz]; cbn [andb].
  - destruct (Z.odd (a / b)) eqn:Hodd.
    + split.
      * intros H.
        destruct (Z.eq_dec (a / b) c) as [Heq | Hne].
        -- right. split; [nia | congruence].
        -- left. nia.
      * intros [H | [H _]]; nia.
    + split.
      * intros H. left. nia.
      * intros [H | [H Hc]]; [nia |].
        assert (a / b = c) by nia. congruence.
  - split.
    + intros H. left. nia.
    + intros [H | [H _]]; nia.
Qed.

Lemma Qlt_half_below (r : Q) (c : Z) :
  (r < inject_Z c - (1 # 2))%Q <->
  2 * Qnum r + Zpos (Qden r) < 2 * Zpos (Qden r) * c.
Proof.
  unfold Qlt, Qminus, Qplus, Qopp, inject_Z; cbn -[Z.mul Z.add].
  lia.
Qed.

Lemma Qeq_half_below (r : Q) (c : Z) :
  (r == inject_Z c - (1 # 2))%Q <->
  2 * Qnum r + Zpos (Qden r) = 2 * Zpos (Qden r) * c.
Proof.
  unfold Qeq, Qminus, Qplus, Qopp, inject_Z; cbn -[Z.mul Z.add].
  lia.
Qed.

Lemma rint_lt_iff (r : Q) (c : Z) :
  rint r < c <->
  (r < inject_Z c - (1 # 2))%Q \/
  ((r == inject_Z c - (1 # 2))%Q /\ Z.odd c = true).
Proof.
  rewrite rint_lt_num, Qlt_half_below, Qeq_half_below. reflexivity.
Qed.

Lemma rint_nonneg (r : Q) : (0 <= r)%Q -> 0 <= rint r.
Proof.
  intros Hr.
  destruct (Z.lt_ge_cases (rint r) 0) as [H | H]; [| exact H].
  apply rint_lt_iff in H.
  exfalso. destruct H as [H | [H _]].
  - apply (Qlt_irrefl r). eapply Qlt_le_trans; [exact H |].
    eapply Qle_trans; [| exact Hr]. unfold Qle; cbn; lia.
  - rewrite H in Hr. unfold Qle in Hr; cbn in Hr; lia.
Qed.

(** [rint] is within one half of its argument. *)
Lemma rint_nearest (r : Q) :
  (inject_Z (rint r) - (1 # 2) <= r <= inject_Z (rint r) + (1 # 2))%Q.
Proof.
  unfold rint, is_tie, half_up.
  set (a := 2 * Qnum r + Zpos (Qden r)).
  set (b := 2 * Zpos (Qden r)).
  assert (Hb : 0 < b) by (unfold b; lia).
  pose proof (Z.div_mod a b ltac:(lia)) as Hdm.
  pose proof (Z.mod_pos_bound a b Hb) as Hm.
  destruct (Z.eqb_spec (a mod b) 0) as [Hz | Hz]; cbn [andb];
    [destruct (Z.odd (a / b)) |];
    unfold Qle, Qminus, Qplus, Qopp, inject_Z; cbn -[Z.mul Z.add Z.div];
    fold a; fold b; unfold a, b in *; nia.
Qed.

(** * Query texts *)

Lemma strip_prefix_app (p s : string) : strip_prefix p (p ++ s) = Some s.
Proof.
  induction p as [| a p IH]; cbn; [reflexivity |].
  rewrite Ascii.eqb_refl. exact IH.
Qed.

Lemma string_length_app (a b : string) :
  String.length (a ++ b) = (String.length a + String.length b)%nat.
Proof. induction a as [| x a IH]; cbn; [reflexivity | now rewrite IH]. Qed.

Lemma substring_all (s : string) : substring 0 (String.length s) s = s.
Proof. induction s as [| x s IH]; cbn; [reflexivity | now rewrite IH]. Qed.

Lemma substring_app_left (a b : string) :
  substring 0 (String.length a) (a ++ b) = a.
Proof.
  induction a as [| x a IH]; cbn.
  - destruct b; reflexivity.
  - now rewrite IH.
Qed.

Lemma substring_app_right (a b : string) :
  substring (String.length a) (String.length b) (a ++ b) = b.
Proof.
  induction a as [| x a IH]; cbn; [apply substring_all | exact IH].
Qed.

Lemma scan_fmt_d (c : Z) : scan_d (fmt_d c) = Some c.
Proof.
  unfold scan_d, fmt_d.
  rewrite NilZero.isi.
  - cbn. now rewrite DecimalZ.of_to.
  - destruct c; cbn; try discriminate.
    intros H; injection H as H. now apply Unsigned.to_uint_nonnil in H.
  - destruct c; cbn; try discriminate.
    intros H; injection H as H. now apply Unsigned.to_uint_nonnil in H.
Qed.

Lemma parse_kill_query_correct (c : Z) :
  parse_kill_query (kill_query c) = Some c.
Proof.
  unfold parse_kill_query, kill_query.
  rewrite strip_prefix_app, string_length_app.
  change (String.length query_tail) with 2%nat.
  rewrite Nat.add_sub.
  change 2%nat with (String.length query_tail) at 1.
  rewrite substring_app_right, String.eqb_refl, substring_app_left.
  apply scan_fmt_d.
Qed.

Lemma kill_query_inj (c c' : Z) : kill_query c = kill_query c' -> c = c'.
Proof.
  intros H.
  pose proof (parse_kill_query_correct c) as Hc.
  rewrite H, parse_kill_query_correct in Hc. congruence.
Qed.

(** * Which rows a pass selects *)

Lemma qual_true_iff (c : Z) (row : activity_row) (r : Q) :
  qual c row r = true <-> has_client row = true /\ rint r < c.
Proof.
  unfold qual, has_client, dtoi4.
  destruct (client_port row); rewrite ?Z.ltb_lt; intuition congruence.
Qed.

Lemma selected_cons (c : Z) (row : activity_row) (r : Q) tbl :
  selected c ((row, r) :: tbl) =
  if qual c row r then row :: selected c tbl else selected c tbl.
Proof. unfold selected; cbn. destruct (qual c row r); reflexivity. Qed.

Lemma candidates_cons (row : activity_row) (r : Q) tbl :
  candidates ((row, r) :: tbl) =
  if has_client row then row :: candidates tbl else candidates tbl.
Proof. reflexivity. Qed.

Lemma selected_none (c : Z) tbl :
  Forall (fun x => c <= rint (snd x)) tbl -> selected c tbl = [].
Proof.
  induction 1 as [| [row r] tbl Hr _ IH]; [reflexivity |].
  rewrite selected_cons, IH.
  destruct (qual c row r) eqn:Hq; [| reflexivity].
  apply qual_true_iff in Hq. cbn in Hr. lia.
Qed.

Lemma selected_all (c : Z) tbl :
  Forall (fun x => rint (snd x) < c) tbl -> selected c tbl = candidates tbl.
Proof.
  induction 1 as [| [row r] tbl Hr _ IH]; [reflexivity |].
  rewrite selected_cons, candidates_cons, IH. cbn in Hr.
  destruct (qual c row r) eqn:Hq.
  - apply qual_true_iff in Hq. now destruct Hq as [-> _].
  - destruct (has_client row) eqn:Hc; [| reflexivity].
    assert (qual c row r = true) by (apply qual_true_iff; auto).
    congruence.
Qed.

(** With [chance = 100] the rows whose draw is below 99.5 are all
    selected. *)
Lemma chance_100_selects_below_995 tbl :
  Forall (fun x => (snd x < 199 # 2)%Q) tbl ->
  selected 100 tbl = candidates tbl.
Proof.
  intros H. apply selected_all.
  eapply Forall_impl; [| exact H].
  intros [row r] Hr; cbn in *.
  apply rint_lt_iff. left.
  eapply Qlt_le_trans; [exact Hr |]. unfold Qle; cbn; lia.
Qed.

(** C7: with [chance = 0] a pass selects no connection, whatever the
    draws in [[0,100)] are and whatever the candidates are: the query
    returns an empty result. *)
Theorem chance_zero_selects_none (e : iter_input) :
  Forall (fun x => (0 <= snd x < 100)%Q) (activity e) ->
  selected 0 (activity e) = [] /\
  snd (spi_result e (kill_query 0)) = [].
Proof.
  intros H.
  assert (Hs : selected 0 (activity e) = []).
  { apply selected_none. eapply Forall_impl; [| exact H].
    intros [row r] [Hr _]; cbn in *. now apply rint_nonneg. }
  split; [exact Hs |].
  unfold spi_result. rewrite parse_kill_query_correct.
  destruct (spi_status e =? SPI_OK_SELECT); [| reflexivity].
  cbn. unfold eval_kill_query. now rewrite Hs.
Qed.

Lemma chance_zero_selects_none_witness :
  let e := quiet_input [(remote_row, 0 # 1); (local_row, 6375 # 64);
                        (autovacuum_row, 1 # 3)] in
  candidates (activity e) = [remote_row; local_row] /\
  selected 0 (activity e) = [] /\
  snd (spi_result e (kill_query 0)) = [].
Proof.
  cbn zeta. split; [reflexivity |].
  apply (chance_zero_selects_none
           (quiet_input [(remote_row, 0 # 1); (local_row, 6375 # 64);
                         (autovacuum_row, 1 # 3)])).
  repeat constructor; cbn; unfold Qle, Qlt; cbn; lia.
Defined.

(** * Counting the draws of a grid that pass *)

Section DownwardClosed.

Variable f : nat -> bool.
Hypothesis f_down : forall k, f (S k) = true -> f k = true.

Lemma count_true_succ (n : nat) :
  count_true f (S n) = (count_true f n + if f n then 1 else 0)%nat.
Proof.
  unfold count_true. rewrite seq_S, filter_app, List.length_app. cbn.
  destruct (f n); reflexivity.
Qed.

Lemma f_down_le (j k : nat) : (j <= k)%nat -> f k = true -> f j = true.
Proof.
  induction 1 as [| k _ IH]; [auto |].
  intros H. apply IH, f_down, H.
Qed.

Lemma count_true_threshold (n : nat) :
  (count_true f n <= n)%nat /\
  forall k, (k < n)%nat -> (f k = true <-> (k < count_true f n)%nat).
Proof.
  induction n as [| n [IHle IH]].
  - split; [cbn; lia | intros k Hk; lia].
  - rewrite count_true_succ. destruct (f n) eqn:Hn.
    + assert (Hfull : count_true f n = n).
      { destruct n as [| m]; [reflexivity |].
        assert (Hm : f m = true) by (apply f_down; exact Hn).
        apply IH in Hm; lia. }
      split; [lia |].
      intros k Hk. split; [lia |].
      intros _. apply (f_down_le k n); [lia | exact Hn].
    + split; [lia |].
      intros k Hk. rewrite Nat.add_0_r.
      destruct (Nat.eq_dec k n) as [-> | Hne].
      * split; [congruence | lia].
      * apply IH; lia.
Qed.

End DownwardClosed.

Lemma grid_pass_iff (c : Z) (N : positive) (k : nat) :
  grid_pass c N k = true <->
  200 * Z.of_nat k < (2 * c - 1) * Zpos N \/
  (200 * Z.of_nat k = (2 * c - 1) * Zpos N /\ Z.odd c = true).
Proof.
  unfold grid_pass, dtoi4, grid_draw.
  rewrite Z.ltb_lt, rint_lt_num. cbn [Qnum Qden].
  assert (Hlt : 2 * (100 * Z.of_nat k) + Zpos N < 2 * Zpos N * c <->
                200 * Z.of_nat k < (2 * c - 1) * Zpos N) by lia.
  assert (Heq : 2 * (100 * Z.of_nat k) + Zpos N = 2 * Zpos N * c <->
                200 * Z.of_nat k = (2 * c - 1) * Zpos N) by lia.
  tauto.
Qed.

Lemma grid_pass_down (c : Z) (N : positive) (k : nat) :
  grid_pass c N (S k) = true -> grid_pass c N k = true.
Proof. rewrite !grid_pass_iff. intros [H | [H Ho]]; left; lia. Qed.

Lemma count_selected_bounds (c : Z) (N : positive) :
  1 <= c <= 100 ->
  (2 * c - 1) * Zpos N <= 200 * Z.of_nat (count_selected c N)
    <= (2 * c - 1) * Zpos N + 200.
Proof.
  intros Hc.
  pose proof (count_true_threshold (grid_pass c N) (grid_pass_down c N)
                (Pos.to_nat N)) as [Hle Hthr].
  fold (count_selected c N) in Hle, Hthr.
  set (T := count_selected c N) in *.
  pose proof (Pos2Nat.is_pos N) as HN.
  assert (HNz : Z.of_nat (Pos.to_nat N) = Zpos N) by apply positive_nat_Z.
  assert (Hpos : (0 < T)%nat).
  { apply (Hthr 0%nat HN). apply grid_pass_iff. left.
    change (Z.of_nat 0) with 0. nia. }
  assert (Hlast : grid_pass c N (T - 1) = true).
  { apply Hthr; lia. }
  apply grid_pass_iff in Hlast.
  split.
  - destruct (Nat.eq_dec T (Pos.to_nat N)) as [Hfull | Hpart].
    + rewrite Hfull, HNz. nia.
    + destruct (grid_pass c N T) eqn:HT.
      * apply Hthr in HT; lia.
      * destruct (Z.lt_ge_cases (200 * Z.of_nat T) ((2 * c - 1) * Zpos N))
          as [Hlt | Hge]; [| lia].
        assert (grid_pass c N T = true)
          by (apply grid_pass_iff; left; exact Hlt).
        congruence.
  - lia.
Qed.

(** * The selection probability *)

Lemma count_selected_fraction (c : Z) (N : positive) :
  1 <= c <= 100 ->
  ((inject_Z c - (1 # 2)) / 100 <= Z.of_nat (count_selected c N) # N
   <= (inject_Z c - (1 # 2)) / 100 + (1 # N))%Q.
Proof.
  intros Hc. pose proof (count_selected_bounds c N Hc) as [Hlo Hhi].
  set (T := Z.of_nat (count_selected c N)) in *.
  unfold Qle, Qdiv, Qmult, Qinv, Qplus, Qminus, Qopp, inject_Z;
    cbn -[Z.mul Z.add]; rewrite ?Pos2Z.inj_mul; nia.
Qed.

(** C10, as the spec states it, fails on a tie: with [chance = 13]
    the draw 12.5 (that is [random() = 0.125]) lies in
    [[c - 1/2, c)], the cast rounds it to the even neighbour 12, and
    the row is selected. *)
Lemma tie_draw_is_selected :
  1 <= 13 <= 100 /\
  (0 <= 25 # 2 < 100)%Q /\
  (inject_Z 13 - (1 # 2) <= 25 # 2 < inject_Z 13)%Q /\
  (dtoi4 (25 # 2) <? 13) = true /\
  selected 13 [(remote_row, 25 # 2)] = [remote_row].
Proof.
  repeat split; try reflexivity; try lia; unfold Qle, Qlt; cbn; lia.
Qed.

(** C10 (amended): the cast rounds to the nearest integer, ties to
    even, so for a chance [c] in [[1,100]] a draw [r] passes
    [(r)::int < c] exactly when [r < c - 1/2], or [r = c - 1/2] and
    [c] is odd.  A draw above [c - 1/2] never passes; the draw
    [c - 1/2] itself passes only for odd [c].  Among [N] equally
    spaced draws of [[0,100)] the fraction that passes is within
    [1/N] of [(c - 1/2)/100], not of [c/100]. *)
Theorem selection_rounds_to_nearest (c : Z) :
  1 <= c <= 100 ->
  (forall r : Q,
      (dtoi4 r <? c) = true <->
      (r < inject_Z c - (1 # 2))%Q \/
      ((r == inject_Z c - (1 # 2))%Q /\ Z.odd c = true)) /\
  (forall r : Q,
      (inject_Z c - (1 # 2) < r)%Q -> (dtoi4 r <? c) = false) /\
  (forall r : Q,
      (r == inject_Z c - (1 # 2))%Q -> (dtoi4 r <? c) = Z.odd c) /\
  (forall N : positive,
      ((inject_Z c - (1 # 2)) / 100 <= Z.of_nat (count_selected c N) # N
       <= (inject_Z c - (1 # 2)) / 100 + (1 # N))%Q).
Proof.
  intros Hc.
  assert (Hiff : forall r : Q,
             (dtoi4 r <? c) = true <->
             (r < inject_Z c - (1 # 2))%Q \/
             ((r == inject_Z c - (1 # 2))%Q /\ Z.odd c = true)).
  { intros r. rewrite Z.ltb_lt. apply rint_lt_iff. }
  split; [exact Hiff |].
  split; [| split].
  - intros r Hr.
    destruct (dtoi4 r <? c) eqn:Hsel; [| reflexivity].
    apply Hiff in Hsel. exfalso. destruct Hsel as [H | [H _]].
    + apply (Qlt_irrefl r). eapply Qlt_trans; eassumption.
    + rewrite H in Hr. exact (Qlt_irrefl _ Hr).
  - intros r Hr.
    destruct (dtoi4 r <? c) eqn:Hsel.
    + apply Hiff in Hsel. destruct Hsel as [H | [_ H]]; [| now rewrite H].
      rewrite Hr in H. exfalso. exact (Qlt_irrefl _ H).
    + destruct (Z.odd c) eqn:Ho; [| reflexivity].
      assert (Ht : (dtoi4 r <? c) = true) by (apply Hiff; right; auto).
      congruence.
  - intros N. now apply count_selected_fraction.
Qed.

Lemma selection_rounds_to_nearest_witness :
  (dtoi4 (99 # 2) <? 50) = Z.odd 50 /\
  (dtoi4 (199 # 4) <? 50) = false /\
  ((inject_Z 50 - (1 # 2)) / 100 <= Z.of_nat (count_selected 50 8) # 8
   <= (inject_Z 50 - (1 # 2)) / 100 + (1 # 8))%Q.
Proof.
  destruct (selection_rounds_to_nearest 50 ltac:(lia))
    as (_ & Habove & Htie & Hfrac).
  split; [apply Htie; reflexivity |].
  split; [apply Habove; unfold Qlt; cbn; lia |].
  apply Hfrac.
Defined.

(** * The blocks of the loop body, computed *)

Lemma sighup_block_eq (e : iter_input) (w : worker) :
  sighup_block e w =
  let w' := reloaded e w in
  if chance w =? chance w'
  then ([EvProcessConfigFile; EvElog LOG sighup_message], Ret tt w')
  else ([EvProcessConfigFile; EvElog LOG sighup_message;
         EvElog DEBUG1 ("Kill query is: " ++ kill_query (chance w'))],
        Ret tt (set_buf (kill_query (chance w')) w')).
Proof.
  unfold sighup_block, bind, get, ProcessConfigFile, interrupts, modify,
    emit, elog, ret, when, resetStringInfo, initStringInfo,
    pg_rage_terminator_build_query, appendStringInfo, reloaded.
  cbn -[kill_query apply_config deliver Z.eqb].
  destruct (chance w =? _); reflexivity.
Qed.

Lemma for_each_log_tuple (ts : list tuple) (w : worker) :
  for_each ts log_tuple w = (rage_events ts, Ret tt w).
Proof.
  induction ts as [| t ts IH]; [reflexivity |].
  cbn [for_each]. unfold bind at 1.
  unfold log_tuple at 1, elog, bind, emit, ret. cbn -[rage_message for_each].
  rewrite IH. reflexivity.
Qed.

Lemma scan_pass_eq (e : iter_input) (w : worker) :
  scan_pass e w =
  let r := spi_result e (buf w) in
  if fst r =? SPI_OK_SELECT
  then ((scan_prologue ++ [EvSPIExecute (buf w)] ++ rage_events (snd r)
           ++ scan_epilogue)%list,
        Ret tt w)
  else ((scan_prologue ++
           [EvSPIExecute (buf w);
            EvElog FATAL "Error when trying to rage";
            EvProcExit 1])%list,
        Exit 1 w).
Proof.
  unfold scan_pass, call, SPI_execute, elog, when.
  unfold bind at 1 2 3 4 5 6 7 8 9. unfold emit at 1 2 3 4 5 6 7.
  unfold get, ret. cbn -[spi_result for_each Z.eqb bind].
  destruct (fst (spi_result e (buf w)) =? SPI_OK_SELECT); cbn [negb].
  - unfold bind at 1. cbn -[spi_result for_each Z.eqb bind].
    unfold bind at 1. rewrite for_each_log_tuple.
    unfold bind, emit. cbn -[spi_result]. reflexivity.
  - reflexivity.
Qed.

Lemma reload_step_eq (e : iter_input) (w : worker) :
  reload_step e w =
  if got_sighup (woken e w)
  then sighup_block e (woken e w)
  else ([], Ret tt (woken e w)).
Proof. unfold reload_step, when, ret. destruct (got_sighup _); reflexivity. Qed.

Lemma reload_step_returns (e : iter_input) (w : worker) :
  snd (reload_step e w) = Ret tt (final (reload_step e w)).
Proof.
  rewrite reload_step_eq.
  destruct (got_sighup (woken e w)); [| reflexivity].
  rewrite sighup_block_eq. cbn zeta.
  destruct (chance _ =? chance _); reflexivity.
Qed.

Lemma loop_body_eq (e : iter_input) (w : worker) :
  loop_body e w =
  let head := [EvWaitLatch (sleep_ms w); EvResetLatch] in
  if postmaster_died e
  then ((head ++ [EvProcExit 1])%list, Exit 1 (woken e w))
  else
    let h := reload_step e w in
    if got_sigterm (final h)
    then ((head ++ trace_of h ++
             [EvElog LOG sigterm_message; EvProcExit 0])%list,
          Exit 0 (final h))
    else
      let w3 := deliver (late_signals e) (final h) in
      if 0 =? interval w3
      then ((head ++ trace_of h ++ [EvElog LOG idle_message])%list,
            Ret tt w3)
      else ((head ++ trace_of h ++ trace_of (scan_pass e w3))%list,
            snd (scan_pass e w3)).
Proof.
  pose proof (reload_step_returns e w) as Hret.
  unfold final, trace_of in *.
  unfold loop_body, WaitLatch, ResetLatch, interrupts.
  unfold bind, get, modify, emit, ret.
  cbn -[sighup_block scan_pass deliver kill_query Z.eqb Z.land Z.mul when
        sigterm_block elog proc_exit].
  fold (woken e w). fold (sleep_ms w). fold (postmaster_died e).
  destruct (postmaster_died e); cbn [when]; [reflexivity |].
  unfold ret at 1. fold (reload_step e w).
  destruct (reload_step e w) as [trh [[] w2 | c w2]]; cbn [fst snd] in *;
    [clear Hret | discriminate Hret].
  destruct (got_sigterm w2); cbn [when]; [reflexivity |].
  unfold ret at 1.
  destruct (0 =? interval _); [reflexivity |].
  destruct (scan_pass e _) as [trs rs]. reflexivity.
Qed.

(** * Signals and flags *)

Lemma deliver_cons (s : signal) sigs (w : worker) :
  deliver (s :: sigs) w = deliver sigs (handler s w).
Proof. reflexivity. Qed.

Lemma deliver_keeps (sigs : list signal) (w : worker) :
  chance (deliver sigs w) = chance w /\
  interval (deliver sigs w) = interval w /\
  buf (deliver sigs w) = buf w.
Proof.
  revert w. induction sigs as [| s sigs IH]; intros w; [auto |].
  rewrite deliver_cons.
  destruct (IH (handler s w)) as (-> & -> & ->).
  destruct s; auto.
Qed.

Lemma deliver_got_sigterm (sigs : list signal) (w : worker) :
  got_sigterm (deliver sigs w) = got_sigterm w || existsb is_sigterm sigs.
Proof.
  revert w. induction sigs as [| s sigs IH]; intros w.
  - cbn. now rewrite orb_false_r.
  - rewrite deliver_cons, IH. destruct s; cbn; [reflexivity |].
    now rewrite orb_true_r.
Qed.

Lemma deliver_got_sighup (sigs : list signal) (w : worker) :
  got_sighup (deliver sigs w) = got_sighup w || existsb is_sighup sigs.
Proof.
  revert w. induction sigs as [| s sigs IH]; intros w.
  - cbn. now rewrite orb_false_r.
  - rewrite deliver_cons, IH. destruct s; cbn; [| reflexivity].
    now rewrite orb_true_r.
Qed.

Lemma deliver_latch (sigs : list signal) (w : worker) :
  latch (deliver sigs w) =
  latch w || existsb is_sighup sigs || existsb is_sigterm sigs.
Proof.
  revert w. induction sigs as [| s sigs IH]; intros w.
  - cbn. now rewrite !orb_false_r.
  - rewrite deliver_cons, IH. destruct s; cbn;
      now rewrite ?orb_true_r, ?orb_true_l.
Qed.

Lemma woken_keeps (e : iter_input) (w : worker) :
  chance (woken e w) = chance w /\
  interval (woken e w) = interval w /\
  buf (woken e w) = buf w.
Proof.
  unfold woken.
  destruct (deliver_keeps (reset_signals e)
              (set_latch false (deliver (wait_signals e) w)))
    as (-> & -> & ->).
  cbn [chance interval buf set_latch]. apply deliver_keeps.
Qed.

Lemma woken_got_sigterm (e : iter_input) (w : worker) :
  got_sigterm (woken e w) =
  got_sigterm w || existsb is_sigterm (wait_signals e)
  || existsb is_sigterm (reset_signals e).
Proof.
  unfold woken. rewrite deliver_got_sigterm.
  cbn [got_sigterm set_latch]. now rewrite deliver_got_sigterm.
Qed.

Lemma reloaded_keeps (e : iter_input) (w : worker) :
  chance (reloaded e w) =
    guc_assign chance_guc (chance w) (cf_chance (conf_file e)) /\
  interval (reloaded e w) =
    guc_assign interval_guc (interval w) (cf_interval (conf_file e)) /\
  buf (reloaded e w) = buf w.
Proof.
  unfold reloaded, apply_config.
  cbn [chance interval buf set_got_sighup set_interval set_chance].
  now destruct (deliver_keeps (reload_signals e) w) as (-> & -> & ->).
Qed.

Lemma reloaded_got_sigterm (e : iter_input) (w : worker) :
  got_sigterm (reloaded e w) =
  got_sigterm w || existsb is_sigterm (reload_signals e).
Proof.
  unfold reloaded, apply_config.
  cbn [got_sigterm set_got_sighup set_interval set_chance].
  apply deliver_got_sigterm.
Qed.

Lemma reload_step_got_sigterm (e : iter_input) (w : worker) :
  got_sigterm (final (reload_step e w)) =
  got_sigterm (woken e w) ||
  (got_sighup (woken e w) && existsb is_sigterm (reload_signals e)).
Proof.
  rewrite reload_step_eq.
  destruct (got_sighup (woken e w));
    [| cbn [andb]; now rewrite orb_false_r].
  rewrite sighup_block_eq. cbn zeta. cbn [andb].
  destruct (chance _ =? chance _); unfold final; cbn [snd];
    cbn [got_sigterm set_buf]; apply reloaded_got_sigterm.
Qed.


Lemma reload_step_trace (e : iter_input) (w : worker) :
  trace_of (reload_step e w) =
  if got_sighup (woken e w)
  then EvProcessConfigFile :: EvElog LOG sighup_message ::
       (if chance w =? chance (reloaded e (woken e w)) then []
        else [EvElog DEBUG1
                ("Kill query is: " ++
                 kill_query (chance (reloaded e (woken e w))))])
  else [].
Proof.
  rewrite reload_step_eq.
  destruct (got_sighup (woken e w)); [| reflexivity].
  rewrite sighup_block_eq. cbn zeta.
  destruct (woken_keeps e w) as (-> & _ & _).
  destruct (chance w =? chance _); reflexivity.
Qed.

Lemma reload_step_no_scan (e : iter_input) (w : worker) :
  existsb is_scan (trace_of (reload_step e w)) = false.
Proof.
  rewrite reload_step_trace.
  destruct (got_sighup _); [| reflexivity].
  destruct (chance w =? _); reflexivity.
Qed.

Lemma existsb_app_false {A} (f : A -> bool) (l l' : list A) :
  existsb f l = false -> existsb f l' = false ->
  existsb f (l ++ l') = false.
Proof. intros H H'. now rewrite existsb_app, H, H'. Qed.

(** An iteration that exits ends the loop: the inputs that follow
    are never looked at. *)
Lemma main_loop_exit (e : iter_input) (rest : list iter_input) (w : worker) :
  got_sigterm w = false ->
  exit_code (loop_body e w) <> None ->
  main_loop (e :: rest) w = loop_body e w.
Proof.
  intros Hw Hexit. cbn [main_loop].
  unfold bind at 1. unfold get at 1. rewrite Hw.
  unfold bind. unfold exit_code in Hexit.
  destruct (loop_body e w) as [tr [[] w' | c w']]; cbn in *;
    [congruence | reflexivity].
Qed.

(** * The order of the checks *)

Lemma loop_body_sigterm (e : iter_input) (w : worker) :
  postmaster_died e = false ->
  got_sigterm (woken e w) = true ->
  loop_body e w =
  (([EvWaitLatch (sleep_ms w); EvResetLatch] ++
    trace_of (reload_step e w) ++
    [EvElog LOG sigterm_message; EvProcExit 0])%list,
   Exit 0 (final (reload_step e w))).
Proof.
  intros Hd Hterm. rewrite loop_body_eq. cbn zeta.
  now rewrite Hd, reload_step_got_sigterm, Hterm.
Qed.

Lemma loop_body_sigterm_trace (e : iter_input) (w : worker) :
  postmaster_died e = false ->
  got_sigterm (woken e w) = true ->
  trace_of (loop_body e w) =
    ([EvWaitLatch (sleep_ms w); EvResetLatch] ++
     trace_of (reload_step e w) ++
     [EvElog LOG sigterm_message; EvProcExit 0])%list /\
  exit_code (loop_body e w) = Some 0.
Proof.
  intros Hd Hterm. now rewrite (loop_body_sigterm e w Hd Hterm).
Qed.


(** C3: after [WaitLatch] and [ResetLatch] an iteration first looks
    at the postmaster-death bit: when it is set the process exits
    with status 1 and the iteration's trace holds nothing else, no
    log line and no scan, whatever the flags are.  Otherwise the
    reload comes next and the terminate check after it: when SIGTERM
    was seen at the wake-up the trace is the wait, the reload step
    (which is empty, or starts with [ProcessConfigFile] and the
    SIGHUP log line), the SIGTERM log line and [proc_exit(0)]; it
    holds no scan, and the loop ends in that iteration. *)
Theorem loop_checks_in_order (e : iter_input) (w : worker) :
  (postmaster_died e = true ->
   loop_body e w =
   ([EvWaitLatch (sleep_ms w); EvResetLatch; EvProcExit 1],
    Exit 1 (woken e w))) /\
  (postmaster_died e = false ->
   got_sigterm (woken e w) = true ->
   trace_of (loop_body e w) =
     ([EvWaitLatch (sleep_ms w); EvResetLatch] ++
      trace_of (reload_step e w) ++
      [EvElog LOG sigterm_message; EvProcExit 0])%list /\
   (if got_sighup (woken e w)
    then exists rest,
        trace_of (reload_step e w) =
        EvProcessConfigFile :: EvElog LOG sighup_message :: rest
    else trace_of (reload_step e w) = []) /\
   exit_code (loop_body e w) = Some 0 /\
   existsb is_scan (trace_of (loop_body e w)) = false /\
   forall rest, got_sigterm w = false ->
                main_loop (e :: rest) w = loop_body e w).
Proof.
  split.
  - intros Hd. rewrite loop_body_eq. cbn zeta. now rewrite Hd.
  - intros Hd Hterm.
    pose proof (loop_body_sigterm e w Hd Hterm) as Heq.
    split; [now rewrite Heq |].
    split.
    { rewrite reload_step_trace.
      destruct (got_sighup (woken e w)); [eexists |]; reflexivity. }
    split; [now rewrite Heq |].
    split.
    { rewrite Heq. unfold trace_of; cbn [fst].
      apply existsb_app_false; [reflexivity |].
      apply existsb_app_false; [apply reload_step_no_scan | reflexivity]. }
    intros rest Hw. apply main_loop_exit; [exact Hw |].
    rewrite Heq. discriminate.
Qed.

Lemma loop_checks_in_order_witness :
  loop_body death_input w_running =
    ([EvWaitLatch 5000; EvResetLatch; EvProcExit 1],
     Exit 1 (woken death_input w_running)) /\
  trace_of (loop_body hup_term_input w_running) =
    [EvWaitLatch 5000; EvResetLatch;
     EvProcessConfigFile; EvElog LOG sighup_message;
     EvElog DEBUG1 ("Kill query is: " ++ kill_query 50);
     EvElog LOG sigterm_message; EvProcExit 0] /\
  exit_code (loop_body hup_term_input w_running) = Some 0.
Proof.
  split.
  - apply (proj1 (loop_checks_in_order death_input w_running)).
    reflexivity.
  - destruct (proj2 (loop_checks_in_order hup_term_input w_running)
                eq_refl eq_refl) as (Htr & _ & Hexit & _).
    split; [| exact Hexit].
    rewrite Htr. reflexivity.
Defined.

(** * The final globals of an iteration *)

Lemma scan_pass_final (e : iter_input) (w : worker) :
  final (scan_pass e w) = w.
Proof.
  rewrite scan_pass_eq. cbn zeta.
  destruct (fst _ =? SPI_OK_SELECT); reflexivity.
Qed.

Lemma reload_step_final (e : iter_input) (w : worker) :
  final (reload_step e w) =
  if got_sighup (woken e w)
  then if chance w =? chance (reloaded e (woken e w))
       then reloaded e (woken e w)
       else set_buf (kill_query (chance (reloaded e (woken e w))))
              (reloaded e (woken e w))
  else woken e w.
Proof.
  rewrite reload_step_eq.
  destruct (got_sighup (woken e w)); [| reflexivity].
  rewrite sighup_block_eq. cbn zeta.
  destruct (woken_keeps e w) as (-> & _ & _).
  destruct (chance w =? chance _); reflexivity.
Qed.

Lemma reload_step_config (e : iter_input) (w : worker) :
  chance (final (reload_step e w)) =
    (if got_sighup (woken e w)
     then guc_assign chance_guc (chance w) (cf_chance (conf_file e))
     else chance w) /\
  interval (final (reload_step e w)) =
    (if got_sighup (woken e w)
     then guc_assign interval_guc (interval w) (cf_interval (conf_file e))
     else interval w).
Proof.
  rewrite reload_step_final.
  destruct (woken_keeps e w) as (Hc & Hi & _).
  destruct (got_sighup (woken e w)); [| auto].
  destruct (reloaded_keeps e (woken e w)) as (Hrc & Hri & _).
  destruct (chance w =? chance _); cbn [chance interval set_buf];
    rewrite Hrc, Hri, Hc, Hi; auto.
Qed.

Lemma loop_body_final (e : iter_input) (w : worker) :
  final (loop_body e w) =
  if postmaster_died e then woken e w
  else if got_sigterm (final (reload_step e w))
       then final (reload_step e w)
       else deliver (late_signals e) (final (reload_step e w)).
Proof.
  rewrite loop_body_eq. cbn zeta.
  destruct (postmaster_died e); [reflexivity |].
  destruct (got_sigterm _); [reflexivity |].
  destruct (0 =? interval _); [reflexivity |].
  unfold final at 1; cbn [snd]. apply scan_pass_final.
Qed.

Lemma loop_body_scans (e : iter_input) (w : worker) :
  scans e w = true ->
  loop_body e w =
  (([EvWaitLatch (sleep_ms w); EvResetLatch] ++
    trace_of (reload_step e w) ++
    trace_of (scan_pass e
                (deliver (late_signals e) (final (reload_step e w)))))%list,
   snd (scan_pass e (deliver (late_signals e) (final (reload_step e w))))).
Proof.
  unfold scans. rewrite !andb_true_iff, !negb_true_iff.
  intros [[Hd Ht] Hi].
  rewrite loop_body_eq. cbn zeta. rewrite Hd, Ht.
  destruct (deliver_keeps (late_signals e) (final (reload_step e w)))
    as (_ & -> & _).
  now rewrite Hi.
Qed.

Lemma loop_body_no_scan (e : iter_input) (w : worker) :
  scans e w = false ->
  existsb is_scan (trace_of (loop_body e w)) = false /\
  forallb (fun ev => match ev with EvCall _ => false | _ => true end)
    (trace_of (loop_body e w)) = true.
Proof.
  unfold scans.
  rewrite loop_body_eq. cbn zeta.
  pose proof (reload_step_trace e w) as Htr.
  destruct (deliver_keeps (late_signals e) (final (reload_step e w)))
    as (_ & -> & _).
  destruct (postmaster_died e); [split; reflexivity |].
  destruct (got_sigterm (final (reload_step e w))).
  - intros _. unfold trace_of at 1 3; cbn [fst]. rewrite Htr.
    destruct (got_sighup _); [destruct (chance w =? _) |]; split; reflexivity.
  - cbn [negb andb]. intros Hs. apply negb_false_iff in Hs. rewrite Hs.
    unfold trace_of at 1 3; cbn [fst]. rewrite Htr.
    destruct (got_sighup _); [destruct (chance w =? _) |]; split; reflexivity.
Qed.

(** * The disabled worker *)

Lemma sleep_ms_disabled (w : worker) : interval w = 0 -> sleep_ms w = 10000.
Proof. unfold sleep_ms. now intros ->. Qed.

Lemma reload_step_disabled_ok (e : iter_input) (w : worker) :
  forallb disabled_ok (trace_of (reload_step e w)) = true.
Proof.
  rewrite reload_step_trace.
  destruct (got_sighup _); [destruct (chance w =? _) |]; reflexivity.
Qed.

Lemma reload_step_stays_disabled (e : iter_input) (w : worker) :
  interval w = 0 -> keeps_disabled e ->
  interval (final (reload_step e w)) = 0.
Proof.
  intros Hi Hk. destruct (reload_step_config e w) as [_ ->].
  rewrite Hi, Hk. now destruct (got_sighup _).
Qed.

Lemma loop_body_disabled (e : iter_input) (w : worker) :
  interval w = 0 -> keeps_disabled e ->
  forallb disabled_ok (trace_of (loop_body e w)) = true /\
  interval (final (loop_body e w)) = 0.
Proof.
  intros Hi Hk.
  pose proof (reload_step_stays_disabled e w Hi Hk) as Hr.
  pose proof (reload_step_disabled_ok e w) as Hok.
  split.
  - rewrite loop_body_eq. cbn zeta. rewrite (sleep_ms_disabled w Hi).
    destruct (deliver_keeps (late_signals e) (final (reload_step e w)))
      as (_ & -> & _).
    rewrite Hr.
    destruct (postmaster_died e); [reflexivity |].
    destruct (got_sigterm _); unfold trace_of at 1;
      rewrite ?Z.eqb_refl; cbn [fst];
      rewrite !forallb_app, Hok; reflexivity.
  - rewrite loop_body_final.
    destruct (postmaster_died e).
    + now destruct (woken_keeps e w) as (_ & -> & _).
    + destruct (got_sigterm _); [exact Hr |].
      now destruct (deliver_keeps (late_signals e) (final (reload_step e w)))
        as (_ & -> & _).
Qed.

Lemma main_loop_eq (inputs : list iter_input) (w : worker) :
  main_loop inputs w =
  if got_sigterm w then ([EvProcExit 0], Exit 0 w)
  else match inputs with
       | [] => ([], Ret tt w)
       | e :: rest =>
           match loop_body e w with
           | (tr, Ret _ w') =>
               ((tr ++ trace_of (main_loop rest w'))%list,
                snd (main_loop rest w'))
           | (tr, Exit c w') => (tr, Exit c w')
           end
       end.
Proof.
  destruct inputs as [| e rest]; cbn [main_loop];
    unfold bind at 1; unfold get at 1;
    destruct (got_sigterm w); try reflexivity.
  unfold bind, trace_of.
  destruct (loop_body e w) as [tr [[] w' | c w']]; [| reflexivity].
  destruct (main_loop rest w'); reflexivity.
Qed.

Lemma main_loop_disabled (inputs : list iter_input) :
  forall w : worker,
    interval w = 0 -> Forall keeps_disabled inputs ->
    forallb disabled_ok (trace_of (main_loop inputs w)) = true /\
    interval (final (main_loop inputs w)) = 0.
Proof.
  induction inputs as [| e rest IH]; intros w Hi Hk;
    rewrite main_loop_eq; destruct (got_sigterm w);
    try (split; [reflexivity | exact Hi]).
  pose proof (Forall_inv Hk) as Hke.
  pose proof (Forall_inv_tail Hk) as Hkrest.
  destruct (loop_body_disabled e w Hi Hke) as [Hok Hfin].
  unfold trace_of, final in Hok, Hfin.
  destruct (loop_body e w) as [tr [[] w' | c w']]; cbn [fst snd] in *.
  - destruct (IH w' Hfin Hkrest) as [Hok' Hfin'].
    split; [| exact Hfin'].
    unfold trace_of at 1; cbn [fst].
    now rewrite forallb_app, Hok, Hok'.
  - split; assumption.
Qed.

(** C4: a worker whose [interval] is 0 never runs the scan.  In an
    iteration that ends with [interval = 0] after its reload step no
    query is executed; a worker that starts an iteration with
    [interval = 0] waits 10000 ms; over any number of iterations in
    which no configuration file moves [interval] away from 0 the
    trace holds no call of the scan and only waits of 10000 ms.  The
    disabled worker still handles both signals: a SIGHUP seen at the
    wake-up makes it read the configuration file, log it and take the
    new [chance]; a SIGTERM seen at the wake-up makes it log and exit
    with status 0. *)
Theorem disabled_worker_never_scans :
  (forall e w,
      interval (final (reload_step e w)) = 0 ->
      existsb is_scan (trace_of (loop_body e w)) = false) /\
  (forall e w,
      interval w = 0 ->
      exists rest,
        trace_of (loop_body e w) = EvWaitLatch 10000 :: EvResetLatch :: rest) /\
  (forall inputs w,
      interval w = 0 -> Forall keeps_disabled inputs ->
      forallb disabled_ok (trace_of (main_loop inputs w)) = true /\
      interval (final (main_loop inputs w)) = 0) /\
  (forall e w,
      interval w = 0 -> postmaster_died e = false ->
      got_sighup (woken e w) = true ->
      In EvProcessConfigFile (trace_of (loop_body e w)) /\
      In (EvElog LOG sighup_message) (trace_of (loop_body e w)) /\
      chance (final (loop_body e w)) =
        guc_assign chance_guc (chance w) (cf_chance (conf_file e))) /\
  (forall e w,
      interval w = 0 -> postmaster_died e = false ->
      got_sigterm (woken e w) = true ->
      In (EvElog LOG sigterm_message) (trace_of (loop_body e w)) /\
      exit_code (loop_body e w) = Some 0).
Proof.
  split; [| split; [| split; [| split]]].
  - intros e w Hi. apply loop_body_no_scan.
    unfold scans. rewrite Hi. cbn. now rewrite !andb_false_r.
  - intros e w Hi. rewrite loop_body_eq. cbn zeta.
    rewrite (sleep_ms_disabled w Hi).
    destruct (postmaster_died e); [eexists; reflexivity |].
    destruct (got_sigterm _); [eexists; reflexivity |].
    destruct (0 =? interval _); eexists; reflexivity.
  - intros inputs w. apply main_loop_disabled.
  - intros e w Hi Hd Hup.
    assert (Htr : exists tail,
               trace_of (loop_body e w) =
               EvWaitLatch (sleep_ms w) :: EvResetLatch ::
               EvProcessConfigFile :: EvElog LOG sighup_message :: tail).
    { rewrite loop_body_eq. cbn zeta. rewrite Hd.
      pose proof (reload_step_trace e w) as Hr. rewrite Hup in Hr.
      destruct (got_sigterm _); [| destruct (0 =? interval _)];
        unfold trace_of at 1; cbn [fst]; rewrite Hr;
        eexists; reflexivity. }
    destruct Htr as [tail ->].
    split; [cbn; auto |].
    split; [cbn; auto |].
    rewrite loop_body_final, Hd.
    destruct (reload_step_config e w) as [Hc _]. rewrite Hup in Hc.
    destruct (got_sigterm _); [exact Hc |].
    now destruct (deliver_keeps (late_signals e) (final (reload_step e w)))
      as (-> & _ & _).
  - intros e w Hi Hd Hterm.
    destruct (loop_body_sigterm_trace e w Hd Hterm) as [Htr Hexit].
    split; [| exact Hexit].
    rewrite Htr. apply in_or_app. right. apply in_or_app. right. cbn; auto.
Qed.

Lemma disabled_worker_never_scans_witness :
  let inputs := [hup_input disabling_conf; idle_input disabling_conf;
                 term_input; idle_input disabling_conf] in
  existsb is_scan
    (trace_of (loop_body (hup_input disabling_conf) w_running)) = false /\
  (exists rest,
      trace_of (loop_body (idle_input disabling_conf) w_disabled) =
      EvWaitLatch 10000 :: EvResetLatch :: rest) /\
  (forallb disabled_ok (trace_of (main_loop inputs w_disabled)) = true /\
   interval (final (main_loop inputs w_disabled)) = 0) /\
  chance (final (loop_body (hup_input disabling_conf) w_disabled)) = 50 /\
  exit_code (loop_body term_input w_disabled) = Some 0.
Proof.
  cbn zeta.
  destruct disabled_worker_never_scans as (H1 & H2 & H3 & H4 & H5).
  split; [apply H1; reflexivity |].
  split; [apply H2; reflexivity |].
  split; [apply H3; [reflexivity | repeat constructor] |].
  split.
  - apply (H4 (hup_input disabling_conf) w_disabled); reflexivity.
  - apply (H5 term_input w_disabled); reflexivity.
Defined.

(** * Reload and the query text *)

Lemma reload_step_build (e : iter_input) (w : worker) :
  existsb is_build (trace_of (reload_step e w)) =
  got_sighup (woken e w) &&
  negb (chance w =? chance (final (reload_step e w))).
Proof.
  rewrite reload_step_trace, reload_step_final.
  destruct (got_sighup (woken e w)); [| reflexivity].
  cbn [andb].
  destruct (chance w =? chance (reloaded e (woken e w))) eqn:Hc;
    cbn [existsb is_build orb]; [now rewrite Hc |].
  cbn [chance set_buf]. now rewrite Hc.
Qed.

Lemma reload_step_buf (e : iter_input) (w : worker) :
  buf w = kill_query (chance w) ->
  buf (final (reload_step e w)) =
  kill_query (chance (final (reload_step e w))).
Proof.
  intros Hb. rewrite reload_step_final.
  destruct (woken_keeps e w) as (Hc & _ & Hbw).
  destruct (got_sighup (woken e w)); [| now rewrite Hc, Hbw].
  destruct (chance w =? chance (reloaded e (woken e w))) eqn:Heq;
    [| reflexivity].
  apply Z.eqb_eq in Heq. rewrite <- Heq.
  destruct (reloaded_keeps e (woken e w)) as (_ & _ & ->).
  now rewrite Hbw.
Qed.

Lemma scan_pass_queries (e : iter_input) (w : worker) (q : string) :
  In (EvSPIExecute q) (trace_of (scan_pass e w)) -> q = buf w.
Proof.
  rewrite scan_pass_eq. cbn zeta.
  assert (Hp : ~ In (EvSPIExecute q) scan_prologue)
    by (cbn; intuition discriminate).
  assert (Hr : forall ts, ~ In (EvSPIExecute q) (rage_events ts)).
  { intros ts Hin. unfold rage_events in Hin.
    apply in_map_iff in Hin. destruct Hin as (t & Ht & _). discriminate. }
  destruct (fst _ =? SPI_OK_SELECT); unfold trace_of; cbn [fst];
    intros Hin; apply in_app_or in Hin; destruct Hin as [Hin | Hin];
    try contradiction.
  - cbn [app] in Hin. destruct Hin as [Hin | Hin]; [congruence |].
    apply in_app_or in Hin. destruct Hin as [Hin | Hin].
    + now apply Hr in Hin.
    + cbn in Hin. intuition discriminate.
  - cbn in Hin. intuition (try discriminate; congruence).
Qed.

Lemma loop_body_queries (e : iter_input) (w : worker) (q : string) :
  In (EvSPIExecute q) (trace_of (loop_body e w)) ->
  q = buf (final (reload_step e w)) /\
  final (loop_body e w) =
    deliver (late_signals e) (final (reload_step e w)).
Proof.
  destruct (scans e w) eqn:Hs.
  - rewrite (loop_body_scans e w Hs).
    unfold trace_of at 1; cbn [fst]. intros Hin.
    assert (Hscan : In (EvSPIExecute q)
                      (trace_of (scan_pass e (deliver (late_signals e)
                                   (final (reload_step e w)))))).
    { cbn [app] in Hin. destruct Hin as [Hin | [Hin | Hin]];
        try discriminate.
      apply in_app_or in Hin. destruct Hin as [Hin | Hin]; [| exact Hin].
      pose proof (reload_step_no_scan e w) as Hno.
      exfalso.
      assert (Hex : existsb is_scan (trace_of (reload_step e w)) = true)
        by (apply existsb_exists; exists (EvSPIExecute q); auto).
      congruence. }
    apply scan_pass_queries in Hscan.
    destruct (deliver_keeps (late_signals e) (final (reload_step e w)))
      as (_ & _ & Hb).
    split; [now rewrite <- Hb |].
    unfold final at 1; cbn [snd]. apply scan_pass_final.
  - destruct (loop_body_no_scan e w Hs) as [Hno _]. intros Hin.
    assert (Hex : existsb is_scan (trace_of (loop_body e w)) = true)
      by (apply existsb_exists; exists (EvSPIExecute q); auto).
    congruence.
Qed.

Lemma loop_body_buf (e : iter_input) (w : worker) :
  buf w = kill_query (chance w) ->
  buf (final (loop_body e w)) = kill_query (chance (final (loop_body e w))).
Proof.
  intros Hb. rewrite loop_body_final.
  pose proof (reload_step_buf e w Hb) as Hr.
  destruct (postmaster_died e).
  - now destruct (woken_keeps e w) as (-> & _ & ->).
  - destruct (got_sigterm _); [exact Hr |].
    now destruct (deliver_keeps (late_signals e) (final (reload_step e w)))
      as (-> & _ & ->).
Qed.

Lemma main_loop_buf (inputs : list iter_input) :
  forall w : worker,
    buf w = kill_query (chance w) ->
    buf (final (main_loop inputs w)) =
    kill_query (chance (final (main_loop inputs w))).
Proof.
  induction inputs as [| e rest IH]; intros w Hb;
    rewrite main_loop_eq; destruct (got_sigterm w); try exact Hb.
  pose proof (loop_body_buf e w Hb) as Hl. unfold final in Hl.
  destruct (loop_body e w) as [tr [[] w' | c w']]; cbn [snd] in Hl.
  - exact (IH w' Hl).
  - exact Hl.
Qed.


Lemma main_eq (inputs : list iter_input) (w : worker) :
  pg_rage_terminator_main inputs w =
  let w0 := set_buf (kill_query (chance w)) w in
  ((main_prologue w ++ trace_of (main_loop inputs w0))%list,
   snd (main_loop inputs w0)).
Proof.
  unfold pg_rage_terminator_main, call, initStringInfo,
    pg_rage_terminator_build_query, appendStringInfo, elog, main_prologue.
  unfold bind at 1 2 3 4 5 6 7 8 9 10. unfold emit, modify, get, ret.
  cbn -[kill_query main_loop]. unfold trace_of.
  change (set_buf (kill_query (chance w)) (set_buf EmptyString w))
    with (set_buf (kill_query (chance w)) w).
  destruct (main_loop inputs (set_buf (kill_query (chance w)) w)).
  reflexivity.
Qed.

Lemma rage_events_no_build (ts : list tuple) :
  existsb is_build (rage_events ts) = false.
Proof. induction ts as [| t ts IH]; [reflexivity | exact IH]. Qed.

Lemma scan_pass_no_build (e : iter_input) (w : worker) :
  existsb is_build (trace_of (scan_pass e w)) = false.
Proof.
  rewrite scan_pass_eq. cbn zeta.
  destruct (fst _ =? SPI_OK_SELECT); unfold trace_of; cbn [fst];
    [| reflexivity].
  rewrite !existsb_app, rage_events_no_build. reflexivity.
Qed.

Lemma sighup_block_as_step (e : iter_input) (w : worker) :
  trace_of (sighup_block e w) =
    EvProcessConfigFile :: EvElog LOG sighup_message ::
    (if chance w =? chance (reloaded e w) then []
     else [EvElog DEBUG1 ("Kill query is: " ++
                          kill_query (chance (reloaded e w)))]) /\
  final (sighup_block e w) =
    (if chance w =? chance (reloaded e w) then reloaded e w
     else set_buf (kill_query (chance (reloaded e w))) (reloaded e w)).
Proof.
  rewrite sighup_block_eq. cbn zeta.
  destruct (chance w =? chance (reloaded e w)); split; reflexivity.
Qed.

(** * The query text follows [chance] *)

(** C5: a reload builds the query text again exactly when [chance]
    after [ProcessConfigFile] differs from [chance] before it; when
    it is the same (whatever happens to [interval]) the text is left
    as it was.  The text always is the kill query of the current
    [chance]: this holds when the loop is entered, every iteration
    keeps it, and a query run by an iteration is the kill query of
    the [chance] that iteration's reload step left.  Within an
    iteration the reload step, and so any rebuild, comes before the
    scan. *)
Theorem query_follows_chance :
  (forall e w,
      existsb is_build (trace_of (sighup_block e w)) =
      negb (chance w =? chance (final (sighup_block e w)))) /\
  (forall e w,
      chance (final (sighup_block e w)) = chance w ->
      buf (final (sighup_block e w)) = buf w) /\
  (forall e w,
      chance (final (sighup_block e w)) <> chance w ->
      buf (final (sighup_block e w)) =
      kill_query (chance (final (sighup_block e w)))) /\
  (forall e w,
      buf w = kill_query (chance w) ->
      buf (final (loop_body e w)) =
        kill_query (chance (final (loop_body e w))) /\
      forall q,
        In (EvSPIExecute q) (trace_of (loop_body e w)) ->
        q = kill_query (chance (final (reload_step e w))) /\
        chance (final (loop_body e w)) = chance (final (reload_step e w)) /\
        parse_kill_query q = Some (chance (final (reload_step e w)))) /\
  (forall e w,
      scans e w = true ->
      exists strace,
        trace_of (loop_body e w) =
          ([EvWaitLatch (sleep_ms w); EvResetLatch] ++
           trace_of (reload_step e w) ++ strace)%list /\
        existsb is_scan
          ([EvWaitLatch (sleep_ms w); EvResetLatch] ++
           trace_of (reload_step e w)) = false /\
        existsb is_build strace = false) /\
  (forall inputs w,
      buf (final (pg_rage_terminator_main inputs w)) =
      kill_query (chance (final (pg_rage_terminator_main inputs w)))).
Proof.
  split; [| split; [| split; [| split; [| split]]]].
  - intros e w. destruct (sighup_block_as_step e w) as [-> ->].
    destruct (chance w =? chance (reloaded e w)) eqn:Hc;
      cbn [existsb is_build orb chance set_buf]; now rewrite Hc.
  - intros e w. destruct (sighup_block_as_step e w) as [_ ->].
    destruct (chance w =? chance (reloaded e w)) eqn:Hc.
    + intros _. now destruct (reloaded_keeps e w) as (_ & _ & ->).
    + cbn [chance set_buf]. intros H. rewrite H, Z.eqb_refl in Hc.
      discriminate.
  - intros e w. destruct (sighup_block_as_step e w) as [_ ->].
    destruct (chance w =? chance (reloaded e w)) eqn:Hc.
    + apply Z.eqb_eq in Hc. congruence.
    + reflexivity.
  - intros e w Hb. split; [now apply loop_body_buf |].
    intros q Hin. apply loop_body_queries in Hin. destruct Hin as [-> Hfin].
    pose proof (reload_step_buf e w Hb) as Hr.
    split; [exact Hr |].
    split.
    + rewrite Hfin.
      now destruct (deliver_keeps (late_signals e) (final (reload_step e w)))
        as (-> & _ & _).
    + rewrite Hr. apply parse_kill_query_correct.
  - intros e w Hs.
    exists (trace_of (scan_pass e (deliver (late_signals e)
                                   (final (reload_step e w))))).
    split; [now rewrite (loop_body_scans e w Hs) |].
    split; [| apply scan_pass_no_build].
    apply existsb_app_false; [reflexivity | apply reload_step_no_scan].
  - intros inputs w. rewrite main_eq. cbn zeta.
    unfold final at 1 2; cbn [snd].
    apply main_loop_buf. reflexivity.
Qed.

Lemma query_follows_chance_witness :
  buf (final (sighup_block (hup_input disabling_conf) w_running)) =
    kill_query 50 /\
  buf (final (sighup_block
                (hup_input {| cf_chance := None; cf_interval := Some 60 |})
                w_running)) = buf w_running /\
  (forall q,
      In (EvSPIExecute q)
        (trace_of (loop_body (hup_input sample_conf) w_running)) ->
      q = kill_query 50) /\
  exists strace,
    trace_of (loop_body (hup_input sample_conf) w_running) =
      ([EvWaitLatch 5000; EvResetLatch; EvProcessConfigFile;
        EvElog LOG sighup_message;
        EvElog DEBUG1 ("Kill query is: " ++ kill_query 50)] ++ strace)%list /\
    existsb is_build strace = false.
Proof.
  destruct query_follows_chance as (_ & Hsame & Hdiff & Hiter & Hord & _).
  split; [apply (Hdiff (hup_input disabling_conf) w_running); discriminate |].
  split; [apply Hsame; reflexivity |].
  split.
  - intros q Hq.
    apply (Hiter (hup_input sample_conf) w_running eq_refl) in Hq.
    exact (proj1 Hq).
  - destruct (Hord (hup_input sample_conf) w_running eq_refl)
      as (strace & Htr & _ & Hnb).
    exists strace. split; [exact Htr | exact Hnb].
Defined.

(** * The scan pass *)

Lemma rage_message_project (f : Z -> bool)
  (layout : string -> string * string) (row : activity_row) :
  rage_message (project f layout row) = rage_line layout row.
Proof.
  destruct row as [p u dn ca cp].
  destruct u, dn, ca; reflexivity.
Qed.

Lemma rage_events_eval (c : Z) (f : Z -> bool)
  (layout : string -> string * string) tbl :
  rage_events (eval_kill_query c f layout tbl) =
  map (fun row => EvElog LOG (rage_line layout row)) (selected c tbl).
Proof.
  unfold rage_events, eval_kill_query. rewrite map_map.
  apply map_ext. intros row. now rewrite rage_message_project.
Qed.

Lemma spi_result_failure (e : iter_input) (q : string) :
  spi_status e <> SPI_OK_SELECT ->
  (fst (spi_result e q) =? SPI_OK_SELECT) = false.
Proof.
  intros H. unfold spi_result.
  destruct (Z.eqb_spec (spi_status e) SPI_OK_SELECT) as [Heq | Hne];
    [contradiction |].
  cbn [fst]. now apply Z.eqb_neq.
Qed.

Lemma spi_result_success (e : iter_input) (c : Z) :
  spi_status e = SPI_OK_SELECT ->
  spi_result e (kill_query c) =
  (SPI_OK_SELECT,
   eval_kill_query c (terminate e) (text_layout e) (activity e)).
Proof.
  intros H. unfold spi_result.
  now rewrite H, Z.eqb_refl, parse_kill_query_correct.
Qed.

Lemma scan_pass_success (e : iter_input) (w : worker) (c : Z) :
  buf w = kill_query c ->
  spi_status e = SPI_OK_SELECT ->
  scan_pass e w =
  ((scan_prologue ++ [EvSPIExecute (kill_query c)] ++
    map (fun row => EvElog LOG (rage_line (text_layout e) row))
      (selected c (activity e)) ++
    scan_epilogue)%list,
   Ret tt w).
Proof.
  intros Hb Hs. rewrite scan_pass_eq, Hb, (spi_result_success e c Hs).
  cbn zeta. cbn [fst snd]. rewrite Z.eqb_refl.
  now rewrite rage_events_eval.
Qed.

Lemma scan_pass_failure (e : iter_input) (w : worker) :
  spi_status e <> SPI_OK_SELECT ->
  scan_pass e w =
  ((scan_prologue ++
    [EvSPIExecute (buf w); EvElog FATAL "Error when trying to rage";
     EvProcExit 1])%list,
   Exit 1 w).
Proof.
  intros H. rewrite scan_pass_eq. cbn zeta.
  now rewrite (spi_result_failure e (buf w) H).
Qed.

Lemma scan_pass_terminate (f : Z -> bool) (e : iter_input) (w : worker) :
  scan_pass (with_terminate f e) w = scan_pass e w.
Proof.
  rewrite !scan_pass_eq. cbn zeta. unfold spi_result.
  cbn [spi_status activity terminate text_layout with_terminate].
  destruct (spi_status e =? SPI_OK_SELECT); [| reflexivity].
  destruct (parse_kill_query (buf w)); [| reflexivity].
  cbn [fst snd]. now rewrite !rage_events_eval.
Qed.

Lemma loop_body_terminate (f : Z -> bool) (e : iter_input) (w : worker) :
  loop_body (with_terminate f e) w = loop_body e w.
Proof.
  rewrite !loop_body_eq. cbn zeta.
  change (postmaster_died (with_terminate f e)) with (postmaster_died e).
  change (reload_step (with_terminate f e) w) with (reload_step e w).
  change (late_signals (with_terminate f e)) with (late_signals e).
  now rewrite scan_pass_terminate.
Qed.

(** C1: at [chance = 100] a connection with a client port whose draw
    is 99.609375 (that is [random() = 255/256]) is not selected: the
    cast rounds the draw to 100, and [100 < 100] is false.  The
    connection is a candidate of the pass, the query returns no row
    for it and the pass logs nothing. *)
Theorem chance_100_misses_high_draw :
  let e := quiet_input [(remote_row, 6375 # 64)] in
  (0 <= 6375 # 64 < 100)%Q /\
  dtoi4 (6375 # 64) = 100 /\
  candidates (activity e) = [remote_row] /\
  selected 100 (activity e) = [] /\
  spi_result e (kill_query 100) = (SPI_OK_SELECT, []) /\
  scan_pass e w_hundred =
    ((scan_prologue ++ [EvSPIExecute (kill_query 100)] ++ scan_epilogue)%list,
     Ret tt w_hundred).
Proof.
  cbn zeta.
  split; [unfold Qle, Qlt; cbn; lia |].
  split; [reflexivity |].
  split; [reflexivity |].
  split; [reflexivity |].
  split.
  - unfold spi_result. rewrite parse_kill_query_correct. reflexivity.
  - now rewrite (scan_pass_success _ w_hundred 100).
Qed.

(** C6: when [SPI_execute] returns anything but [SPI_OK_SELECT] the
    pass logs at level FATAL and the process exits with status 1
    right after the one call of the query; the loop does not go on to
    another iteration, so the query is not tried again.  What
    [pg_terminate_backend] returns for a row makes no difference to
    the iteration: the trace, with its log lines, and the resulting
    globals are the same for any two termination results, and after a
    successful query the iteration returns to the loop.  The lines
    are there: after a successful query the pass logs one line at
    level LOG for each selected row, made from the row's pid,
    database, user and address and not from the result of
    [pg_terminate_backend], and goes on to commit. *)
Theorem scan_failure_is_fatal :
  (forall e w,
      spi_status e <> SPI_OK_SELECT ->
      scan_pass e w =
      ((scan_prologue ++
        [EvSPIExecute (buf w); EvElog FATAL "Error when trying to rage";
         EvProcExit 1])%list,
       Exit 1 w)) /\
  (forall e rest w,
      got_sigterm w = false ->
      scans e w = true ->
      spi_status e <> SPI_OK_SELECT ->
      main_loop (e :: rest) w = loop_body e w /\
      exit_code (main_loop (e :: rest) w) = Some 1 /\
      exists pre q,
        trace_of (main_loop (e :: rest) w) =
          (pre ++ [EvSPIExecute q; EvElog FATAL "Error when trying to rage";
                   EvProcExit 1])%list /\
        existsb is_scan pre = false) /\
  (forall f e w, loop_body (with_terminate f e) w = loop_body e w) /\
  (forall e w,
      buf w = kill_query (chance w) ->
      scans e w = true ->
      spi_status e = SPI_OK_SELECT ->
      exit_code (loop_body e w) = None) /\
  (forall e w c,
      buf w = kill_query c ->
      spi_status e = SPI_OK_SELECT ->
      scan_pass e w =
      ((scan_prologue ++ [EvSPIExecute (kill_query c)] ++
        map (fun row => EvElog LOG (rage_line (text_layout e) row))
          (selected c (activity e)) ++
        scan_epilogue)%list,
       Ret tt w)) /\
  (forall e w t,
      fst (spi_result e (buf w)) = SPI_OK_SELECT ->
      In t (snd (spi_result e (buf w))) ->
      In (EvElog LOG (rage_message t)) (trace_of (scan_pass e w)) /\
      forall d,
        rage_message
          {| t_pid := t_pid t; t_status := d; t_usename := t_usename t;
             t_datname := t_datname t; t_client_addr := t_client_addr t |}
        = rage_message t).
Proof.
  split; [exact scan_pass_failure |].
  split; [| split; [exact loop_body_terminate |
                    split; [| split; [exact scan_pass_success |]]]].
  - intros e rest w Hw Hs Hfail.
    assert (Hbody : loop_body e w =
              ((([EvWaitLatch (sleep_ms w); EvResetLatch] ++
                 trace_of (reload_step e w) ++ scan_prologue) ++
                [EvSPIExecute
                   (buf (deliver (late_signals e) (final (reload_step e w))));
                 EvElog FATAL "Error when trying to rage"; EvProcExit 1])%list,
               Exit 1 (deliver (late_signals e) (final (reload_step e w))))).
    { rewrite (loop_body_scans e w Hs), (scan_pass_failure _ _ Hfail).
      unfold trace_of at 2; cbn [fst snd].
      now rewrite <- !app_assoc. }
    assert (Hexit : main_loop (e :: rest) w = loop_body e w).
    { apply main_loop_exit; [exact Hw |]. rewrite Hbody. discriminate. }
    split; [exact Hexit |]. rewrite Hexit, Hbody.
    split; [reflexivity |].
    eexists. eexists. split; [reflexivity |].
    apply existsb_app_false; [reflexivity |].
    apply existsb_app_false; [apply reload_step_no_scan | reflexivity].
  - intros e w Hb Hs Hok. rewrite (loop_body_scans e w Hs).
    pose proof (reload_step_buf e w Hb) as Hr.
    destruct (deliver_keeps (late_signals e) (final (reload_step e w)))
      as (_ & _ & Hbuf).
    rewrite <- Hbuf in Hr.
    now rewrite (scan_pass_success e _ _ Hr Hok).
  - intros e w t Hok Hin. split; [| reflexivity].
    rewrite scan_pass_eq. cbn zeta. rewrite Hok, Z.eqb_refl.
    unfold trace_of; cbn [fst].
    apply in_or_app. right. apply in_or_app. right.
    apply in_or_app. left.
    unfold rage_events. apply in_map_iff. exists t. auto.
Qed.

Lemma scan_failure_is_fatal_witness :
  exit_code (main_loop [failing_input; idle_input sample_conf] w_running)
    = Some 1 /\
  trace_of (main_loop [failing_input; idle_input sample_conf] w_running) =
    ([EvWaitLatch 5000; EvResetLatch] ++ scan_prologue ++
     [EvSPIExecute (kill_query 10);
      EvElog FATAL "Error when trying to rage"; EvProcExit 1])%list /\
  exit_code (loop_body (idle_input sample_conf) w_running) = None /\
  scan_pass (with_terminate (fun _ => false) (idle_input sample_conf))
    w_fifty =
    ((scan_prologue ++
      [EvSPIExecute (kill_query 50);
       EvElog LOG
         ("Rage terminated connection with PID 4711 shop/alice/" ++
          String (ascii_of_nat 21) "192.0.2.7");
       EvElog LOG
         "Rage terminated connection with PID 4712 none/bob/none"] ++
      scan_epilogue)%list,
     Ret tt w_fifty).
Proof.
  destruct scan_failure_is_fatal as (_ & Hloop & _ & Hcont & Hlog & _).
  destruct (Hloop failing_input [idle_input sample_conf] w_running)
    as (Heq & Hexit & _); [reflexivity | reflexivity | discriminate |].
  split; [exact Hexit |].
  split; [rewrite Heq; reflexivity |].
  split; [apply Hcont; reflexivity |].
  rewrite (Hlog (with_terminate (fun _ => false) (idle_input sample_conf))
             w_fifty 50 eq_refl eq_refl).
  reflexivity.
Defined.

(** * The log of a scan pass *)

Lemma c_string_app (s rest : string) :
  c_string s = s -> c_string (s ++ rest) = s ++ c_string rest.
Proof.
  induction s as [| a s IH]; cbn; [reflexivity |].
  destruct (Ascii.eqb a Ascii.zero); [discriminate |].
  intros H. injection H as H. now rewrite IH.
Qed.

(** Behind a header of one byte that is not NUL, the text found for
    an address is at least one byte longer than the address. *)
Lemma addr_as_cstring_longer (layout : string -> string * string)
  (addr : string) (hb : ascii) :
  fst (layout addr) = String hb EmptyString ->
  hb <> Ascii.zero ->
  c_string addr = addr ->
  exists garbage,
    addr_as_cstring layout addr = String hb (addr ++ garbage) /\
    addr_as_cstring layout addr <> addr.
Proof.
  intros Hh Hb Ha. unfold addr_as_cstring. rewrite Hh.
  cbn [append c_string].
  destruct (Ascii.eqb_spec hb Ascii.zero) as [Hz | _]; [contradiction |].
  rewrite (c_string_app addr _ Ha).
  exists (c_string (snd (layout addr))). split; [reflexivity |].
  intros Heq. apply (f_equal String.length) in Heq.
  cbn [String.length] in Heq. rewrite string_length_app in Heq. lia.
Qed.

(** C8: the line logged for a selected connection with the address
    192.0.2.7 does not hold that address as its last field.  The
    column [client_addr::text] is a varlena and the worker reads it
    with [DatumGetCString], so the field starts with the byte of the
    varlena header (here 21, the header of a short text of 9
    characters).  The pid, the database and the user are logged as
    they are, and a NULL column as [none]. *)
Theorem client_addr_is_logged_with_its_header :
  let e := idle_input sample_conf in
  selected 50 (activity e) = [remote_row; local_row] /\
  client_addr remote_row = Some "192.0.2.7" /\
  scan_pass e w_fifty =
    ((scan_prologue ++
      [EvSPIExecute (kill_query 50);
       EvElog LOG
         ("Rage terminated connection with PID 4711 shop/alice/" ++
          String (ascii_of_nat 21) "192.0.2.7");
       EvElog LOG
         "Rage terminated connection with PID 4712 none/bob/none"] ++
      scan_epilogue)%list,
     Ret tt w_fifty) /\
  rage_line (text_layout e) remote_row <>
    "Rage terminated connection with PID 4711 shop/alice/192.0.2.7".
Proof.
  cbn zeta.
  split; [reflexivity |].
  split; [reflexivity |].
  split.
  - rewrite (scan_pass_success (idle_input sample_conf) w_fifty 50
               eq_refl eq_refl).
    reflexivity.
  - intros H. apply (f_equal String.length) in H. discriminate H.
Qed.

(** * The two flags *)




Lemma sighup_block_flags (e : iter_input) (w : worker) :
  got_sighup (final (sighup_block e w)) = false /\
  got_sigterm (final (sighup_block e w)) =
    got_sigterm w || existsb is_sigterm (reload_signals e) /\
  latch (final (sighup_block e w)) =
    latch w || existsb is_sighup (reload_signals e)
    || existsb is_sigterm (reload_signals e).
Proof.
  destruct (sighup_block_as_step e w) as [_ ->].
  assert (H : got_sighup (reloaded e w) = false /\
              got_sigterm (reloaded e w) =
                got_sigterm w || existsb is_sigterm (reload_signals e) /\
              latch (reloaded e w) =
                latch w || existsb is_sighup (reload_signals e)
                || existsb is_sigterm (reload_signals e)).
  { split; [reflexivity |]. split; [apply reloaded_got_sigterm |].
    unfold reloaded, apply_config.
    cbn [latch set_got_sighup set_interval set_chance].
    apply deliver_latch. }
  destruct (chance w =? _); exact H.
Qed.



(** * The range of the parameters *)

Lemma guc_assign_in_range (g : config_int) (cur : Z) (setting : option Z) :
  min_val g <= boot_val g <= max_val g ->
  min_val g <= cur <= max_val g ->
  min_val g <= guc_assign g cur setting <= max_val g.
Proof.
  intros Hboot Hcur. unfold guc_assign, in_range.
  destruct setting as [v |]; [| exact Hboot].
  destruct (min_val g <=? v) eqn:Hlo; [| exact Hcur].
  destruct (v <=? max_val g) eqn:Hhi; [| exact Hcur].
  cbn. lia.
Qed.

(** What the range check does guarantee: [chance] stays in
    [[0,100]] and [interval] in [[-1,3600]]. *)
Lemma apply_config_in_range (cf : config_file) (w : worker) :
  0 <= chance w <= 100 -> -1 <= interval w <= 3600 ->
  0 <= chance (apply_config cf w) <= 100 /\
  -1 <= interval (apply_config cf w) <= 3600.
Proof.
  intros Hc Hi. unfold apply_config.
  cbn [chance interval set_interval set_chance].
  split.
  - apply (guc_assign_in_range chance_guc); [cbn; lia | exact Hc].
  - apply (guc_assign_in_range interval_guc); [cbn; lia | exact Hi].
Qed.

(** C2: the lower bound registered for [interval] is -1, so a
    configuration file that sets [interval] to -1 passes the range
    check and the worker runs with [interval = -1]: at server start,
    after a reload whatever the value was before, and in the loop,
    which then calls [WaitLatch] with a timeout of -1000 ms. *)
Theorem negative_interval_is_applied :
  in_range interval_guc (-1) = true /\
  interval (start negative_conf) = -1 /\
  (forall w, interval (apply_config negative_conf w) = -1) /\
  interval (final (loop_body (hup_input negative_conf) w_running)) = -1 /\
  exists rest,
    trace_of (loop_body (idle_input negative_conf)
                (set_buf (kill_query 10) (start negative_conf))) =
    EvWaitLatch (-1000) :: rest.
Proof.
  split; [reflexivity |].
  split; [reflexivity |].
  split; [reflexivity |].
  split.
  - rewrite loop_body_final.
    destruct (reload_step_config (hup_input negative_conf) w_running)
      as [_ Hi].
    change (postmaster_died (hup_input negative_conf)) with false.
    cbn iota.
    destruct (got_sigterm _); [exact Hi |].
    now destruct (deliver_keeps (late_signals (hup_input negative_conf))
                    (final (reload_step (hup_input negative_conf) w_running)))
      as (_ & -> & _).
  - eexists. reflexivity.
Qed.

(** * Signals coalesce *)

Lemma worker_eq (w w' : worker) :
  got_sigterm w = got_sigterm w' -> got_sighup w = got_sighup w' ->
  latch w = latch w' -> chance w = chance w' ->
  interval w = interval w' -> buf w = buf w' -> w = w'.
Proof. destruct w, w'; cbn; intros; subst; reflexivity. Qed.

Lemma existsb_kind (sigs sigs' : list signal) (p : signal -> bool) :
  (forall s, In s sigs <-> In s sigs') -> existsb p sigs = existsb p sigs'.
Proof.
  intros H. apply eq_true_iff_eq. rewrite !existsb_exists.
  split; intros (s & Hin & Hp); exists s; split; auto; now apply H.
Qed.

(** X1: the flags are no counters.  What a burst of signals leaves in
    the globals depends only on which of SIGHUP and SIGTERM occur in
    it, not on how often or in which order. *)
Theorem signals_coalesce (sigs sigs' : list signal) (w : worker) :
  (forall s, In s sigs <-> In s sigs') ->
  deliver sigs w = deliver sigs' w.
Proof.
  intros H.
  pose proof (existsb_kind sigs sigs' is_sighup H) as Hup.
  pose proof (existsb_kind sigs sigs' is_sigterm H) as Hterm.
  destruct (deliver_keeps sigs w) as (Hc & Hi & Hb).
  destruct (deliver_keeps sigs' w) as (Hc' & Hi' & Hb').
  apply worker_eq; try congruence.
  - now rewrite !deliver_got_sigterm, Hterm.
  - now rewrite !deliver_got_sighup, Hup.
  - now rewrite !deliver_latch, Hup, Hterm.
Qed.

Lemma signals_coalesce_witness :
  deliver [SIGHUP; SIGHUP; SIGTERM; SIGHUP] boot =
  deliver [SIGTERM; SIGHUP] boot.
Proof.
  apply signals_coalesce.
  intros s; destruct s; cbn; tauto.
Defined.

(** * Counting the events of an iteration *)

Lemma count_ev_app (p : event -> bool) (l l' : list event) :
  count_ev p (l ++ l') = (count_ev p l + count_ev p l')%nat.
Proof. unfold count_ev. now rewrite filter_app, List.length_app. Qed.

Lemma count_ev_rage (p : event -> bool) (ts : list tuple) :
  (forall m, p (EvElog LOG m) = false) ->
  count_ev p (rage_events ts) = 0%nat.
Proof.
  intros Hp. induction ts as [| t ts IH]; [reflexivity |].
  unfold count_ev in *. cbn. now rewrite Hp.
Qed.

(** The trace of an iteration, piece by piece. *)
Lemma loop_body_trace (e : iter_input) (w : worker) :
  trace_of (loop_body e w) =
  ([EvWaitLatch (sleep_ms w); EvResetLatch] ++
   if postmaster_died e then [EvProcExit 1]
   else trace_of (reload_step e w) ++
        if got_sigterm (final (reload_step e w))
        then [EvElog LOG sigterm_message; EvProcExit 0]
        else if 0 =? interval (final (reload_step e w))
             then [EvElog LOG idle_message]
             else trace_of
                    (scan_pass e (deliver (late_signals e)
                                    (final (reload_step e w)))))%list.
Proof.
  rewrite loop_body_eq. cbn zeta.
  destruct (deliver_keeps (late_signals e) (final (reload_step e w)))
    as (_ & -> & _).
  destruct (postmaster_died e); [reflexivity |].
  destruct (got_sigterm (final (reload_step e w))); [reflexivity |].
  destruct (0 =? interval _); reflexivity.
Qed.

Lemma scan_pass_count (p : event -> bool) (e : iter_input) (w : worker) :
  (forall m, p (EvElog LOG m) = false) ->
  count_ev p (trace_of (scan_pass e w)) =
  Nat.add
    (Nat.add (count_ev p scan_prologue)
       (count_ev p [EvSPIExecute (buf w)]))
    (if fst (spi_result e (buf w)) =? SPI_OK_SELECT
     then count_ev p scan_epilogue
     else count_ev p
            [EvElog FATAL "Error when trying to rage"; EvProcExit 1]).
Proof.
  intros Hp. rewrite scan_pass_eq. cbn zeta.
  destruct (fst _ =? SPI_OK_SELECT); unfold trace_of; cbn [fst].
  - rewrite !count_ev_app, (count_ev_rage p _ Hp). lia.
  - change [EvSPIExecute (buf w);
            EvElog FATAL "Error when trying to rage"; EvProcExit 1]
      with ([EvSPIExecute (buf w)] ++
            [EvElog FATAL "Error when trying to rage"; EvProcExit 1])%list.
    rewrite !count_ev_app. lia.
Qed.

Lemma reload_step_count_config (e : iter_input) (w : worker) :
  count_ev is_config (trace_of (reload_step e w)) =
  if got_sighup (woken e w) then 1%nat else 0%nat.
Proof.
  rewrite reload_step_trace.
  destruct (got_sighup _); [destruct (chance w =? _) |]; reflexivity.
Qed.

Lemma loop_body_count_reload (p : event -> bool)
  (e : iter_input) (w : worker) :
  outside_reload p ->
  count_ev p (trace_of (loop_body e w)) =
  if postmaster_died e then 0%nat
  else count_ev p (trace_of (reload_step e w)).
Proof.
  intros (Hwait & Hreset & Hexit & Hterm & Hidle & Hrage & Hfatal
          & Hcall & Hquery).
  assert (Hrages : forall ts, count_ev p (rage_events ts) = 0%nat).
  { induction ts as [| t ts IH]; [reflexivity |].
    unfold count_ev in *. cbn [rage_events map filter].
    now rewrite Hrage. }
  rewrite loop_body_trace, count_ev_app.
  assert (Hhead : count_ev p [EvWaitLatch (sleep_ms w); EvResetLatch]
                  = 0%nat)
    by (unfold count_ev; cbn; now rewrite Hwait, Hreset).
  rewrite Hhead.
  destruct (postmaster_died e).
  { unfold count_ev; cbn. now rewrite Hexit. }
  rewrite count_ev_app.
  assert (Htail : count_ev p
            (if got_sigterm (final (reload_step e w))
             then [EvElog LOG sigterm_message; EvProcExit 0]
             else if 0 =? interval (final (reload_step e w))
                  then [EvElog LOG idle_message]
                  else trace_of
                         (scan_pass e (deliver (late_signals e)
                                         (final (reload_step e w)))))
            = 0%nat).
  { destruct (got_sigterm _).
    { unfold count_ev; cbn. now rewrite Hterm, Hexit. }
    destruct (0 =? interval _).
    { unfold count_ev; cbn. now rewrite Hidle. }
    rewrite scan_pass_eq. cbn zeta.
    destruct (fst _ =? SPI_OK_SELECT); unfold trace_of; cbn [fst].
    - rewrite !count_ev_app, Hrages.
      unfold count_ev, scan_prologue, scan_epilogue; cbn.
      now rewrite !Hcall, Hquery.
    - rewrite count_ev_app.
      unfold count_ev, scan_prologue; cbn.
      now rewrite !Hcall, Hquery, Hfatal, Hexit. }
  rewrite Htail. cbn. lia.
Qed.

(** X2: an iteration reads the configuration file once when a SIGHUP
    is pending after the wait and the postmaster is alive, however
    many SIGHUPs arrived, and not at all otherwise. *)
Theorem one_reload_per_iteration (e : iter_input) (w : worker) :
  count_ev is_config (trace_of (loop_body e w)) =
  if negb (postmaster_died e) && got_sighup (woken e w)
  then 1%nat else 0%nat.
Proof.
  rewrite loop_body_count_reload by (repeat split; reflexivity).
  destruct (postmaster_died e); cbn [negb andb]; [reflexivity |].
  apply reload_step_count_config.
Qed.

(** X3: an iteration executes the query exactly once when it gets as
    far as the scan (postmaster alive, no SIGTERM pending at the
    terminate check, [interval] not 0 once the reload is done) and
    never otherwise; the wait before it was computed from [interval]
    as it was before the reload. *)
Theorem one_query_per_scanning_iteration (e : iter_input) (w : worker) :
  count_ev is_scan (trace_of (loop_body e w)) =
    (if negb (postmaster_died e) &&
        negb (got_sigterm (final (reload_step e w))) &&
        negb (0 =? interval (final (reload_step e w)))
     then 1%nat else 0%nat) /\
  exists rest,
    trace_of (loop_body e w) =
    EvWaitLatch ((if 0 =? interval w then 10 else interval w) * 1000)
      :: EvResetLatch :: rest.
Proof.
  split.
  - rewrite loop_body_trace, count_ev_app.
    destruct (postmaster_died e); [reflexivity |].
    rewrite count_ev_app.
    assert (Hr : count_ev is_scan (trace_of (reload_step e w)) = 0%nat).
    { rewrite reload_step_trace.
      destruct (got_sighup _); [destruct (chance w =? _) |]; reflexivity. }
    rewrite Hr. cbn [negb andb].
    destruct (got_sigterm _); [reflexivity |].
    destruct (0 =? interval _); [reflexivity |]. cbn [negb andb].
    rewrite scan_pass_count by reflexivity.
    destruct (fst _ =? SPI_OK_SELECT); reflexivity.
  - rewrite loop_body_trace. eexists. reflexivity.
Qed.

(** * The latch and the flags *)


Lemma loop_body_continues (e : iter_input) (w : worker) :
  exit_code (loop_body e w) = None ->
  postmaster_died e = false /\
  got_sigterm (final (reload_step e w)) = false /\
  final (loop_body e w) =
    deliver (late_signals e) (final (reload_step e w)).
Proof.
  intros Hrun.
  pose proof (loop_body_final e w) as Hfin.
  rewrite loop_body_eq in Hrun. cbn zeta in Hrun.
  destruct (postmaster_died e); [discriminate |].
  destruct (got_sigterm (final (reload_step e w))); [discriminate |].
  auto.
Qed.


(** The latch can be set with no flag pending: the SIGHUP came after
    [ResetLatch] and was served in the same iteration. *)
Lemma latch_set_without_flag :
  let w := final (loop_body hup_after_reset_input w_running) in
  exit_code (loop_body hup_after_reset_input w_running) = None /\
  latch w = true /\ got_sighup w = false /\ got_sigterm w = false.
Proof. repeat split; reflexivity. Qed.


(** * A SIGTERM that comes during the scan *)

Lemma rage_is_not_sigterm (t : tuple) :
  is_log_of sigterm_message (EvElog LOG (rage_message t)) = false.
Proof. reflexivity. Qed.

Lemma count_sigterm_log_rage (ts : list tuple) :
  count_ev (is_log_of sigterm_message) (rage_events ts) = 0%nat.
Proof.
  induction ts as [| t ts IH]; [reflexivity |].
  unfold count_ev in *. cbn [rage_events map filter].
  now rewrite rage_is_not_sigterm.
Qed.

Lemma scan_pass_no_sigterm_log (e : iter_input) (w : worker) :
  count_ev (is_log_of sigterm_message) (trace_of (scan_pass e w)) = 0%nat.
Proof.
  rewrite scan_pass_eq. cbn zeta.
  destruct (fst _ =? SPI_OK_SELECT); unfold trace_of; cbn [fst];
    [| reflexivity].
  rewrite !count_ev_app, count_sigterm_log_rage. reflexivity.
Qed.

(** X5: a SIGTERM that arrives after the flag checks of an iteration
    (while the scan runs, say) ends the worker at the head of the
    loop: the iteration is completed, there is no further wait, the
    process exits with status 0, and the line "processed SIGTERM" is
    not logged. *)
Theorem late_sigterm_exits_silently
  (e : iter_input) (rest : list iter_input) (w : worker) :
  got_sigterm w = false ->
  exit_code (loop_body e w) = None ->
  existsb is_sigterm (late_signals e) = true ->
  main_loop (e :: rest) w =
    ((trace_of (loop_body e w) ++ [EvProcExit 0])%list,
     Exit 0 (final (loop_body e w))) /\
  count_ev (is_log_of sigterm_message) (trace_of (main_loop (e :: rest) w))
    = 0%nat.
Proof.
  intros Hw Hrun Hlate.
  destruct (loop_body_continues e w Hrun) as (Hd & Hterm & Hfin).
  assert (Hset : got_sigterm (final (loop_body e w)) = true).
  { rewrite Hfin, deliver_got_sigterm, Hlate. apply orb_true_r. }
  assert (Hmain : main_loop (e :: rest) w =
            ((trace_of (loop_body e w) ++ [EvProcExit 0])%list,
             Exit 0 (final (loop_body e w)))).
  { rewrite main_loop_eq, Hw.
    unfold exit_code in Hrun. unfold final in Hset. unfold trace_of, final.
    destruct (loop_body e w) as [tr [[] w' | c w']]; [| discriminate].
    cbn [fst snd] in *. rewrite main_loop_eq, Hset. reflexivity. }
  split; [exact Hmain |].
  rewrite Hmain. unfold trace_of at 1; cbn [fst].
  rewrite count_ev_app, loop_body_trace, Hd, Hterm, !count_ev_app.
  assert (Hr : count_ev (is_log_of sigterm_message)
                 (trace_of (reload_step e w)) = 0%nat).
  { rewrite reload_step_trace.
    destruct (got_sighup _); [destruct (chance w =? _) |]; reflexivity. }
  rewrite Hr.
  destruct (0 =? interval _); [reflexivity |].
  now rewrite scan_pass_no_sigterm_log.
Qed.

Lemma late_sigterm_exits_silently_witness :
  exit_code (main_loop [late_term_input; idle_input sample_conf] w_running)
    = Some 0 /\
  count_ev is_wait
    (trace_of (main_loop [late_term_input; idle_input sample_conf] w_running))
    = 1%nat.
Proof.
  destruct (late_sigterm_exits_silently late_term_input
              [idle_input sample_conf] w_running eq_refl eq_refl eq_refl)
    as [H _].
  rewrite H. split; reflexivity.
Defined.

(** * How a run ends *)

Lemma reload_step_no_exit (e : iter_input) (w : worker) :
  count_ev is_exit (trace_of (reload_step e w)) = 0%nat.
Proof.
  rewrite reload_step_trace.
  destruct (got_sighup _); [destruct (chance w =? _) |]; reflexivity.
Qed.

Lemma loop_body_exit_shape (e : iter_input) (w : worker) :
  exit_shape (loop_body e w).
Proof.
  unfold exit_shape.
  pose proof (reload_step_no_exit e w) as Hr.
  rewrite loop_body_eq. cbn zeta.
  unfold exit_code, final, trace_of in *.
  destruct (postmaster_died e); cbn [fst snd].
  { split; [auto |]. split; [discriminate |].
    exists [EvWaitLatch (sleep_ms w); EvResetLatch]. split; reflexivity. }
  destruct (got_sigterm _) eqn:Hterm; cbn [fst snd].
  { split; [auto |]. split; [intros _; exact Hterm |].
    exists ([EvWaitLatch (sleep_ms w); EvResetLatch] ++
            fst (reload_step e w) ++ [EvElog LOG sigterm_message])%list.
    split; [now rewrite <- !app_assoc |].
    rewrite !count_ev_app, Hr. reflexivity. }
  destruct (0 =? interval _); cbn [fst snd].
  { rewrite !count_ev_app, Hr. reflexivity. }
  rewrite scan_pass_eq. cbn zeta.
  destruct (fst (spi_result _ _) =? SPI_OK_SELECT); cbn [fst snd].
  - rewrite !count_ev_app, Hr, count_ev_rage by reflexivity. reflexivity.
  - split; [auto |]. split; [discriminate |].
    eexists ([EvWaitLatch (sleep_ms w); EvResetLatch] ++
             fst (reload_step e w) ++ scan_prologue ++
             [EvSPIExecute _; EvElog FATAL "Error when trying to rage"])%list.
    split.
    + rewrite <- !app_assoc. reflexivity.
    + rewrite !count_ev_app, Hr. reflexivity.
Qed.

(** X6: however a run of the loop goes, the worker leaves it only
    through one [proc_exit], which is the last event of the trace,
    with status 0 or 1; status 0 is given only with [got_sigterm]
    set, and as long as the worker has not left no [proc_exit] is in
    the trace. *)
Theorem exit_is_last (inputs : list iter_input) :
  forall w : worker,
    match exit_code (main_loop inputs w) with
    | None => count_ev is_exit (trace_of (main_loop inputs w)) = 0%nat
    | Some c =>
        (c = 0 \/ c = 1) /\
        (c = 0 -> got_sigterm (final (main_loop inputs w)) = true) /\
        exists pre,
          trace_of (main_loop inputs w) = (pre ++ [EvProcExit c])%list /\
          count_ev is_exit pre = 0%nat
    end.
Proof.
  induction inputs as [| e rest IH]; intros w;
    change (exit_shape (main_loop [] w))
    || change (exit_shape (main_loop (e :: rest) w));
    rewrite main_loop_eq; destruct (got_sigterm w) eqn:Hw;
    try (unfold exit_shape; cbn; split; [auto |]; split; [auto |];
         exists []; split; reflexivity);
    try reflexivity.
  pose proof (loop_body_exit_shape e w) as Hbody.
  destruct (loop_body e w) as [tr [[] w' | c w']]; [| exact Hbody].
  specialize (IH w'). change (exit_shape (main_loop rest w')) in IH.
  unfold exit_shape, exit_code, final, trace_of in *; cbn [fst snd] in *.
  destruct (main_loop rest w') as [tr' [[] w'' | c w'']]; cbn [fst snd] in *.
  - now rewrite count_ev_app, Hbody, IH.
  - destruct IH as (Hc & Hterm & pre & -> & Hpre).
    split; [exact Hc |]. split; [exact Hterm |].
    exists (tr ++ pre)%list. split; [now rewrite app_assoc |].
    now rewrite count_ev_app, Hbody, Hpre.
Qed.

Lemma exit_is_last_witness :
  exit_code (main_loop [late_term_input; idle_input sample_conf] w_running)
    = Some 0 /\
  got_sigterm
    (final (main_loop [late_term_input; idle_input sample_conf] w_running))
    = true.
Proof.
  pose proof (exit_is_last [late_term_input; idle_input sample_conf]
                w_running) as H.
  change (exit_code
            (main_loop [late_term_input; idle_input sample_conf] w_running))
    with (Some 0) in H.
  destruct H as (_ & Hterm & _).
  split; [reflexivity | apply Hterm; reflexivity].
Defined.

(** * Transactions *)

Lemma loop_body_count_outside (p : event -> bool)
  (e : iter_input) (w : worker) :
  outside_scan p ->
  count_ev p (trace_of (loop_body e w)) =
  if scans e w
  then count_ev p
         (trace_of (scan_pass e (deliver (late_signals e)
                                   (final (reload_step e w)))))
  else 0%nat.
Proof.
  intros (Hwait & Hreset & Hconf & Hlog & Hdebug & Hexit).
  unfold scans. rewrite loop_body_trace, count_ev_app.
  assert (Hhead : count_ev p [EvWaitLatch (sleep_ms w); EvResetLatch]
                  = 0%nat)
    by (unfold count_ev; cbn; now rewrite Hwait, Hreset).
  rewrite Hhead.
  destruct (postmaster_died e); cbn [negb andb].
  { unfold count_ev; cbn. now rewrite Hexit. }
  rewrite count_ev_app.
  assert (Hr : count_ev p (trace_of (reload_step e w)) = 0%nat).
  { rewrite reload_step_trace. unfold count_ev.
    destruct (got_sighup _); [destruct (chance w =? _) |]; cbn;
      now rewrite ?Hconf, ?Hlog, ?Hdebug. }
  rewrite Hr.
  destruct (got_sigterm _); cbn [negb andb].
  { unfold count_ev; cbn. now rewrite Hlog, Hexit. }
  destruct (0 =? interval _); cbn [negb andb]; [| reflexivity].
  unfold count_ev; cbn. now rewrite Hlog.
Qed.

Lemma loop_body_txn_balanced (e : iter_input) (w : worker) :
  txn_balanced (loop_body e w).
Proof.
  unfold txn_balanced.
  rewrite !loop_body_count_outside by (repeat split; reflexivity).
  destruct (scans e w) eqn:Hs; [| repeat split; auto].
  rewrite !scan_pass_count by reflexivity.
  rewrite (loop_body_scans e w Hs). unfold exit_code; cbn [snd].
  rewrite scan_pass_eq. cbn zeta.
  destruct (fst (spi_result _ _) =? SPI_OK_SELECT); cbn [snd];
    repeat split; auto.
Qed.

(** X7: over any run of the loop as many transactions are started as
    queries are executed, and every transaction is committed except
    the one in which the query failed: there is at most one FATAL
    line, the worker has then exited with status 1, and that
    transaction is left without a commit. *)
Theorem transactions_are_balanced (inputs : list iter_input) :
  forall w : worker,
    count_ev is_start_txn (trace_of (main_loop inputs w)) =
      count_ev is_scan (trace_of (main_loop inputs w)) /\
    count_ev is_start_txn (trace_of (main_loop inputs w)) =
      (count_ev is_commit_txn (trace_of (main_loop inputs w)) +
       count_ev is_fatal (trace_of (main_loop inputs w)))%nat /\
    (count_ev is_fatal (trace_of (main_loop inputs w)) = 0%nat \/
     (count_ev is_fatal (trace_of (main_loop inputs w)) = 1%nat /\
      exit_code (main_loop inputs w) = Some 1)).
Proof.
  induction inputs as [| e rest IH]; intros w;
    rewrite main_loop_eq; destruct (got_sigterm w);
    try (repeat split; auto; fail).
  pose proof (loop_body_txn_balanced e w) as Hbody.
  unfold txn_balanced in Hbody.
  destruct (loop_body e w) as [tr [[] w' | c w']]; [| exact Hbody].
  specialize (IH w').
  unfold exit_code, trace_of in *; cbn [fst snd] in *.
  destruct Hbody as (Hs & Hc & [Hf | [_ Hx]]); [| discriminate].
  destruct IH as (Hs' & Hc' & Hf').
  rewrite !count_ev_app.
  split; [lia |]. split; [lia |].
  rewrite Hf. exact Hf'.
Qed.

(** * The parameters over a run *)

Lemma sleep_ms_bounds (w : worker) :
  params_ok w -> sleep_ms w = -1000 \/ 1000 <= sleep_ms w <= 3600000.
Proof.
  unfold params_ok, sleep_ms.
  cbn [min_val max_val chance_guc interval_guc]. intros [_ Hi].
  destruct (Z.eqb_spec 0 (interval w)); cbn iota; lia.
Qed.

Lemma apply_config_params_ok (cf : config_file) (w : worker) :
  params_ok w -> params_ok (apply_config cf w).
Proof.
  unfold params_ok. cbn [min_val max_val chance_guc interval_guc].
  intros [Hc Hi]. now apply apply_config_in_range.
Qed.

Lemma params_ok_ext (w w' : worker) :
  chance w' = chance w -> interval w' = interval w ->
  params_ok w -> params_ok w'.
Proof. unfold params_ok. now intros -> ->. Qed.

Lemma reload_step_params_ok (e : iter_input) (w : worker) :
  params_ok w -> params_ok (final (reload_step e w)).
Proof.
  intros Hw. destruct (reload_step_config e w) as [Hc Hi].
  destruct (got_sighup (woken e w)).
  - apply (params_ok_ext (apply_config (conf_file e) w));
      [exact Hc | exact Hi | now apply apply_config_params_ok].
  - now apply (params_ok_ext w).
Qed.

Lemma loop_body_params_ok (e : iter_input) (w : worker) :
  params_ok w -> params_ok (final (loop_body e w)).
Proof.
  intros Hw. rewrite loop_body_final.
  pose proof (reload_step_params_ok e w Hw) as Hr.
  destruct (woken_keeps e w) as (Hc & Hi & _).
  destruct (postmaster_died e); [now apply (params_ok_ext w) |].
  destruct (got_sigterm _); [exact Hr |].
  destruct (deliver_keeps (late_signals e) (final (reload_step e w)))
    as (Hc' & Hi' & _).
  now apply (params_ok_ext (final (reload_step e w))).
Qed.

Ltac quiet_events :=
  repeat first [apply Forall_nil | apply Forall_cons; [split; exact I |]].

Lemma rage_events_run_ok (ts : list tuple) :
  Forall (fun ev => wait_ok ev /\ query_ok ev) (rage_events ts).
Proof.
  induction ts as [| t ts IH]; constructor; [split; exact I | exact IH].
Qed.

Lemma loop_body_run_ok (e : iter_input) (w : worker) :
  params_ok w -> buf_ok w ->
  Forall (fun ev => wait_ok ev /\ query_ok ev) (trace_of (loop_body e w)).
Proof.
  intros Hw Hb.
  pose proof (sleep_ms_bounds w Hw) as Hsleep.
  pose proof (reload_step_params_ok e w Hw) as Hr.
  pose proof (reload_step_buf e w Hb) as Hrb.
  rewrite loop_body_trace.
  apply Forall_app. split.
  { apply Forall_cons; [split; [exact Hsleep | exact I] | quiet_events]. }
  destruct (postmaster_died e); [quiet_events |].
  apply Forall_app. split.
  { rewrite reload_step_trace.
    destruct (got_sighup _); [destruct (chance w =? _) |]; quiet_events. }
  destruct (got_sigterm _); [quiet_events |].
  destruct (0 =? interval _); [quiet_events |].
  rewrite scan_pass_eq. cbn zeta.
  destruct (deliver_keeps (late_signals e) (final (reload_step e w)))
    as (_ & _ & ->).
  assert (Hq : query_ok (EvSPIExecute (buf (final (reload_step e w))))).
  { cbn. exists (chance (final (reload_step e w))).
    split; [apply Hr | exact Hrb]. }
  destruct (fst _ =? SPI_OK_SELECT); unfold trace_of; cbn [fst].
  - apply Forall_app. split; [quiet_events |].
    apply Forall_app. split.
    { apply Forall_cons; [split; [exact I | exact Hq] | quiet_events]. }
    apply Forall_app. split; [apply rage_events_run_ok | quiet_events].
  - apply Forall_app. split; [quiet_events |].
    apply Forall_cons; [split; [exact I | exact Hq] | quiet_events].
Qed.

Lemma main_loop_run_ok (inputs : list iter_input) :
  forall w : worker,
    params_ok w -> buf_ok w ->
    Forall (fun ev => wait_ok ev /\ query_ok ev)
      (trace_of (main_loop inputs w)).
Proof.
  induction inputs as [| e rest IH]; intros w Hw Hb;
    rewrite main_loop_eq; destruct (got_sigterm w);
    try (quiet_events; fail).
  pose proof (loop_body_run_ok e w Hw Hb) as Hok.
  pose proof (loop_body_params_ok e w Hw) as Hp.
  pose proof (loop_body_buf e w Hb) as Hbuf.
  unfold trace_of, final in Hok, Hp, Hbuf.
  destruct (loop_body e w) as [tr [[] w' | c w']]; cbn [fst snd] in *;
    [| exact Hok].
  unfold trace_of at 1; cbn [fst].
  apply Forall_app. split; [exact Hok | now apply IH].
Qed.

Lemma main_run_ok (inputs : list iter_input) (w : worker) :
  params_ok w ->
  Forall (fun ev => wait_ok ev /\ query_ok ev)
    (trace_of (pg_rage_terminator_main inputs w)).
Proof.
  intros Hw. rewrite main_eq. cbn zeta. unfold trace_of at 1; cbn [fst].
  apply Forall_app. split; [unfold main_prologue; quiet_events |].
  apply main_loop_run_ok; [| reflexivity].
  now apply (params_ok_ext w).
Qed.

Lemma started_params_ok (cf : config_file) (sigs : list signal) :
  params_ok (deliver sigs (start cf)).
Proof.
  destruct (deliver_keeps sigs (start cf)) as (Hc & Hi & _).
  apply (params_ok_ext (start cf)); [exact Hc | exact Hi |].
  apply apply_config_params_ok. unfold params_ok; cbn; lia.
Qed.

(** X8: whatever the configuration files, signals and server results
    of a run are, every wait of the worker has a timeout between
    1000 and 3600000 ms, or of -1000 ms (the [interval] of -1): the
    worker never polls with a timeout of 0, and the product
    [sleep_interval * 1000L] stays within 32 bits. *)
Theorem waits_are_bounded
  (cf : config_file) (sigs : list signal) (inputs : list iter_input) :
  Forall
    (fun ev =>
       forall t, ev = EvWaitLatch t ->
                 (t = -1000 \/ 1000 <= t <= 3600000) /\
                 - 2 ^ 31 <= t < 2 ^ 31)
    (trace_of (pg_rage_terminator_main inputs (deliver sigs (start cf)))).
Proof.
  eapply Forall_impl;
    [| apply main_run_ok, started_params_ok].
  intros ev [Hwait _] t ->. cbn in Hwait. split; [exact Hwait | lia].
Qed.

Lemma waits_are_bounded_witness :
  (5000 = -1000 \/ 1000 <= 5000 <= 3600000) /\ - 2 ^ 31 <= 5000 < 2 ^ 31.
Proof.
  pose proof (waits_are_bounded sample_conf [SIGHUP]
                [idle_input sample_conf]) as H.
  rewrite Forall_forall in H.
  apply (H (EvWaitLatch 5000)); [| reflexivity].
  do 5 right. left. reflexivity.
Defined.

(** X9: whatever the configuration files, signals and server results
    of a run are, every text the worker hands to [SPI_execute] is the
    kill query of a chance between 0 and 100. *)
Theorem queries_are_kill_queries
  (cf : config_file) (sigs : list signal) (inputs : list iter_input) :
  Forall
    (fun ev =>
       forall q, ev = EvSPIExecute q ->
                 exists c, 0 <= c <= 100 /\ q = kill_query c)
    (trace_of (pg_rage_terminator_main inputs (deliver sigs (start cf)))).
Proof.
  eapply Forall_impl;
    [| apply main_run_ok, started_params_ok].
  intros ev [_ Hq] q ->. exact Hq.
Qed.

Lemma queries_are_kill_queries_witness :
  exists c, 0 <= c <= 100 /\ kill_query 50 = kill_query c.
Proof.
  pose proof (queries_are_kill_queries sample_conf []
                [idle_input sample_conf]) as H.
  rewrite Forall_forall in H.
  apply (H (EvSPIExecute (kill_query 50))); [| reflexivity].
  do 13 right. left. reflexivity.
Defined.

(** * Reloading twice *)

Lemma guc_assign_idem (g : config_int) (cur : Z) (setting : option Z) :
  guc_assign g (guc_assign g cur setting) setting = guc_assign g cur setting.
Proof.
  unfold guc_assign. destruct setting as [v |]; [| reflexivity].
  destruct (in_range g v) eqn:Hv; rewrite ?Hv; reflexivity.
Qed.

Lemma sighup_block_config (e : iter_input) (w : worker) :
  chance (final (sighup_block e w)) =
    guc_assign chance_guc (chance w) (cf_chance (conf_file e)) /\
  interval (final (sighup_block e w)) =
    guc_assign interval_guc (interval w) (cf_interval (conf_file e)).
Proof.
  destruct (sighup_block_as_step e w) as [_ ->].
  destruct (reloaded_keeps e w) as (Hc & Hi & _).
  destruct (chance w =? chance (reloaded e w)); split; assumption.
Qed.

(** X10: a reload is idempotent.  When the configuration file is read
    a second time without having changed, nothing is rebuilt and the
    globals stay as the first reload left them: the block only calls
    [ProcessConfigFile] and logs its line. *)
Theorem second_reload_changes_nothing (e : iter_input) (w : worker) :
  sighup_block e (final (sighup_block e w)) =
  ([EvProcessConfigFile; EvElog LOG sighup_message],
   Ret tt (final (sighup_block e w))).
Proof.
  destruct (sighup_block_config e w) as (Hc & Hi).
  destruct (sighup_block_flags e w) as (Hup & Hterm & Hlatch).
  set (w1 := final (sighup_block e w)) in *.
  destruct (reloaded_keeps e w1) as (Hrc & Hri & Hrb).
  assert (Hre : reloaded e w1 = w1).
  { apply worker_eq.
    - rewrite reloaded_got_sigterm, Hterm.
      now destruct (got_sigterm w), (existsb is_sigterm (reload_signals e)).
    - now rewrite Hup.
    - unfold reloaded, apply_config.
      cbn [latch set_got_sighup set_interval set_chance].
      rewrite deliver_latch, Hlatch.
      now destruct (latch w), (existsb is_sighup (reload_signals e)),
        (existsb is_sigterm (reload_signals e)).
    - now rewrite Hrc, Hc, guc_assign_idem.
    - now rewrite Hri, Hi, guc_assign_idem.
    - exact Hrb. }
  rewrite sighup_block_eq. cbn zeta. rewrite Hre, Z.eqb_refl. reflexivity.
Qed.

(** X11: the test [old_chance != chance] rebuilds the text exactly
    when the text has to change: two chances have the same kill query
    only when they are equal, so after a reload [buf] differs from
    what it was if and only if [chance] does. *)
Theorem rebuild_iff_text_changes (e : iter_input) (w : worker) :
  buf w = kill_query (chance w) ->
  (buf (final (sighup_block e w)) = buf w <->
   chance (final (sighup_block e w)) = chance w).
Proof.
  intros Hb. destruct (sighup_block_as_step e w) as [_ ->].
  destruct (Z.eqb_spec (chance w) (chance (reloaded e w))) as [Heq | Hne].
  - split; [intros _; now rewrite <- Heq |].
    intros _. now destruct (reloaded_keeps e w) as (_ & _ & ->).
  - cbn [buf chance set_buf]. rewrite Hb. split.
    + intros H. now apply kill_query_inj in H.
    + intros H. congruence.
Qed.

Lemma rebuild_iff_text_changes_witness :
  buf (final (sighup_block (hup_input sample_conf) w_running))
    <> buf w_running /\
  buf (final (sighup_block
                (hup_input {| cf_chance := Some 10; cf_interval := Some 7 |})
                w_running)) = buf w_running.
Proof.
  split.
  - intros H.
    apply (rebuild_iff_text_changes (hup_input sample_conf) w_running
             eq_refl) in H.
    discriminate H.
  - apply (rebuild_iff_text_changes
             (hup_input {| cf_chance := Some 10; cf_interval := Some 7 |})
             w_running eq_refl).
    reflexivity.
Defined.

(** * Who can be selected *)

Lemma qual_mono (c c' : Z) (row : activity_row) (r : Q) :
  c <= c' -> qual c row r = true -> qual c' row r = true.
Proof.
  rewrite !qual_true_iff. intros Hc [Hcl Hr]. split; [exact Hcl | lia].
Qed.

Lemma selected_incl_candidates (c : Z) tbl :
  incl (selected c tbl) (candidates tbl).
Proof.
  induction tbl as [| [row r] tbl IH]; [apply incl_refl |].
  rewrite selected_cons, candidates_cons.
  destruct (qual c row r) eqn:Hq.
  - apply qual_true_iff in Hq. destruct Hq as [-> _].
    apply incl_cons; [left; reflexivity | now apply incl_tl].
  - destruct (has_client row); [now apply incl_tl | exact IH].
Qed.

Lemma selected_has_client (c : Z) tbl :
  forallb has_client (selected c tbl) = true.
Proof.
  induction tbl as [| [row r] tbl IH]; [reflexivity |].
  rewrite selected_cons. destruct (qual c row r) eqn:Hq; [| exact IH].
  apply qual_true_iff in Hq. destruct Hq as [Hcl _].
  cbn [forallb]. now rewrite Hcl, IH.
Qed.

(** X12: the worker never terminates a backend without a client
    port.  For the kill query of any chance, whatever the draws and
    the status are, every row of the result is made from a row of
    [pg_stat_activity] whose [client_port] is not NULL (the pid
    handed to [pg_terminate_backend] and logged is that row's), and
    the rows selected for a chance all have a client port and are
    never more than the candidates. *)
Theorem only_clients_are_selected :
  (forall e c,
      incl (map (fun t => DatumGetInt32 (SPI_getbinval t 1))
              (snd (spi_result e (kill_query c))))
           (map pid (candidates (activity e)))) /\
  (forall c tbl,
      forallb has_client (selected c tbl) = true /\
      incl (selected c tbl) (candidates tbl) /\
      (List.length (selected c tbl) <= List.length (candidates tbl))%nat).
Proof.
  split.
  - intros e c. unfold spi_result. rewrite parse_kill_query_correct.
    destruct (spi_status e =? SPI_OK_SELECT); [| apply incl_nil_l].
    cbn [snd]. unfold eval_kill_query. rewrite map_map.
    change (fun x => DatumGetInt32
                       (SPI_getbinval
                          (project (terminate e) (text_layout e) x) 1))
      with pid.
    apply incl_map, selected_incl_candidates.
  - intros c tbl.
    split; [apply selected_has_client |].
    split; [apply selected_incl_candidates |].
    induction tbl as [| [row r] tbl IH]; [reflexivity |].
    rewrite selected_cons, candidates_cons.
    destruct (qual c row r) eqn:Hq.
    + apply qual_true_iff in Hq. destruct Hq as [-> _]. cbn. lia.
    + destruct (has_client row); cbn; lia.
Qed.

(** X13: the chance is a monotone knob.  With the same draws, every
    row selected at a chance is selected at any larger chance. *)
Theorem selection_grows_with_chance (c c' : Z) tbl :
  c <= c' ->
  incl (selected c tbl) (selected c' tbl) /\
  (List.length (selected c tbl) <= List.length (selected c' tbl))%nat.
Proof.
  intros Hc. induction tbl as [| [row r] tbl [IHi IHl]];
    [split; [apply incl_refl | reflexivity] |].
  rewrite !selected_cons.
  destruct (qual c row r) eqn:Hq.
  - rewrite (qual_mono c c' row r Hc Hq). split.
    + apply incl_cons; [left; reflexivity | now apply incl_tl].
    + cbn. lia.
  - destruct (qual c' row r); split; auto.
    + now apply incl_tl.
    + cbn. lia.
Qed.

Lemma selection_grows_with_chance_witness :
  incl (selected 10 sample_table) (selected 50 sample_table) /\
  (List.length (selected 10 sample_table)
   <= List.length (selected 50 sample_table))%nat.
Proof. apply selection_grows_with_chance. lia. Defined.

(** * The parameters stay in range *)

Lemma main_loop_params_ok (inputs : list iter_input) :
  forall w : worker, params_ok w -> params_ok (final (main_loop inputs w)).
Proof.
  induction inputs as [| e rest IH]; intros w Hw;
    rewrite main_loop_eq; destruct (got_sigterm w); try exact Hw.
  pose proof (loop_body_params_ok e w Hw) as Hp. unfold final in Hp.
  destruct (loop_body e w) as [tr [[] w' | c w']]; cbn [snd] in Hp.
  - exact (IH w' Hp).
  - exact Hp.
Qed.

(** X14: whatever the configuration files read at server start and on
    each SIGHUP say, at any point of a run [chance] is between 0 and
    100 and [interval] between -1 and 3600: a value outside the
    registered bounds never reaches the worker's variables. *)
Theorem parameters_stay_in_range
  (cf : config_file) (sigs : list signal) (inputs : list iter_input) :
  let w := final (pg_rage_terminator_main inputs (deliver sigs (start cf))) in
  0 <= chance w <= 100 /\ -1 <= interval w <= 3600.
Proof.
  cbn zeta. rewrite main_eq. cbn zeta. unfold final at 1 2 3 4; cbn [snd].
  apply (main_loop_params_ok inputs).
  apply (params_ok_ext (deliver sigs (start cf))); try reflexivity.
  apply started_params_ok.
Qed.

(** * Every reload is logged *)

Lemma loop_body_count_sighup_log (e : iter_input) (w : worker) :
  count_ev (is_log_of sighup_message) (trace_of (loop_body e w)) =
  count_ev is_config (trace_of (loop_body e w)).
Proof.
  rewrite !loop_body_count_reload by (repeat split; reflexivity).
  destruct (postmaster_died e); [reflexivity |].
  rewrite reload_step_trace.
  destruct (got_sighup _); [destruct (chance w =? _) |]; reflexivity.
Qed.

(** X15: over any run of the loop the line "processed SIGHUP" is
    logged once for every call of [ProcessConfigFile] and never
    without one; no other line of the worker, a line about a
    terminated connection included, is mistaken for it. *)
Theorem every_reload_is_logged (inputs : list iter_input) :
  forall w : worker,
    count_ev (is_log_of sighup_message) (trace_of (main_loop inputs w)) =
    count_ev is_config (trace_of (main_loop inputs w)).
Proof.
  induction inputs as [| e rest IH]; intros w;
    rewrite main_loop_eq; destruct (got_sigterm w); try reflexivity.
  pose proof (loop_body_count_sighup_log e w) as Hbody.
  unfold trace_of in Hbody.
  destruct (loop_body e w) as [tr [[] w' | c w']]; cbn [fst] in Hbody;
    [| exact Hbody].
  unfold trace_of at 1 3; cbn [fst].
  now rewrite !count_ev_app, Hbody, IH.
Qed.

(** * Registration *)

Lemma substring_length (s : string) :
  forall m, String.length (substring 0 m s) = Nat.min m (String.length s).
Proof.
  induction s as [| a s IH]; intros [| m]; cbn; auto.
Qed.

Lemma substring_full (s : string) :
  forall m, (String.length s <= m)%nat -> substring 0 m s = s.
Proof.
  induction s as [| a s IH]; intros [| m] H; cbn in *;
    try reflexivity; try lia.
  rewrite IH by lia. reflexivity.
Qed.

Lemma snprintf_full_iff (size : nat) (s : string) :
  snprintf size s = s <-> (String.length s <= size - 1)%nat.
Proof.
  unfold snprintf. split.
  - intros H. pose proof (substring_length s (size - 1)) as Hl.
    rewrite H in Hl. lia.
  - apply substring_full.
Qed.

(** X16: [_PG_init] registers the worker under names that are those
    of the library and of its main function exactly when
    [BGW_MAXLEN] is at least 25; with a smaller [BGW_MAXLEN] the
    name of the main function would be cut by [snprintf] and the
    server could not find the entry point. *)
Theorem registered_names_fit (BGW_MAXLEN : nat) :
  (bgw_function_name (snd (_PG_init BGW_MAXLEN)) = "pg_rage_terminator_main"
   /\ bgw_library_name (snd (_PG_init BGW_MAXLEN)) = "pg_rage_terminator"
   /\ bgw_name (snd (_PG_init BGW_MAXLEN)) = worker_name) <->
  (25 <= BGW_MAXLEN)%nat.
Proof.
  cbn [_PG_init snd bgw_function_name bgw_library_name bgw_name].
  rewrite !snprintf_full_iff.
  change (String.length "pg_rage_terminator_main") with 23%nat.
  change (String.length "pg_rage_terminator") with 18%nat.
  change (String.length worker_name) with 18%nat.
  lia.
Qed.

Lemma registered_names_fit_witness :
  bgw_function_name (snd (_PG_init 64)) = "pg_rage_terminator_main" /\
  bgw_library_name (snd (_PG_init 64)) = "pg_rage_terminator" /\
  bgw_name (snd (_PG_init 64)) = worker_name.
Proof. apply (proj2 (registered_names_fit 64)). lia. Defined.
